(** * data-diff: the database adapter base ([data_diff/databases/base.py])

    A shallow embedding of the adapter base class of data-diff: the checksum
    constants, table-path normalisation, pagination, typed query results,
    schema parsing and refinement, and the per-thread connection pool.
    Python exceptions are values of [result]; mutable attributes are
    threaded as explicit state. *)

From Stdlib Require Import ZArith List String Ascii Bool Lia Sorted.
From Stdlib Require Import DecimalString.
From Stdlib Require Import Reals Lra.
Import ListNotations.

Local Open Scope string_scope.
Local Open Scope Z_scope.

(** ** Python exceptions and results *)

(** The exception classes that [base.py] raises or defines, together with
    the ones the standard library raises on its behalf.  [NotEmbedded] is
    no Python exception: it marks a call of [_parse_type] with arguments
    outside the types its signature declares, which this model leaves out. *)
Inductive exn_kind : Type :=
  | ConnectError
  | QueryError
  | ValueError
  | TypeError
  | NotImplementedError
  | RuntimeError
  | AssertionError
  | AttributeError
  | ModuleNotFoundError
  | BrokenThreadPool
  | SystemExit
  | IndexError
  | NotEmbedded.

Record exn : Type := mk_exn { exn_class : exn_kind; exn_msg : string }.

Inductive result (A : Type) : Type :=
  | Ok (a : A)
  | Raise (e : exn).
Arguments Ok {A} a.
Arguments Raise {A} e.

Definition bind {A B : Type} (m : result A) (k : A -> result B) : result B :=
  match m with
  | Ok a => k a
  | Raise e => Raise e
  end.

Notation "x <- m ;; k" := (bind m (fun x => k))
  (at level 61, m at next level, right associativity).

Definition raises {A : Type} (m : result A) (c : exn_kind) : Prop :=
  exists msg, m = Raise (mk_exn c msg).

(** ** Python string helpers *)

(** [sep.join(parts)] *)
Definition join (sep : string) (parts : list string) : string :=
  String.concat sep parts.

(** [str(i)] for an [int] *)
Definition str_int (i : Z) : string := NilZero.string_of_int (Z.to_int i).

(** [str(x)] for an [Optional[int]], as an f-string formats it *)
Definition str_opt_int (x : option Z) : string :=
  match x with
  | None => "None"
  | Some i => str_int i
  end.

(** Truth value of a [str] *)
Definition truthy_str (s : string) : bool :=
  match s with
  | EmptyString => false
  | String _ _ => true
  end.

(** [c.lower()] on the ASCII range.  It stands for [str.lower()] where the
    lowered string is compared with the ASCII words [select], [y] and [yes];
    the lowering of column names is the parameter [str_lower] below. *)
Definition lower_ascii (c : ascii) : ascii :=
  let n := nat_of_ascii c in
  if (Nat.leb 65 n && Nat.leb n 90)%bool then ascii_of_nat (n + 32) else c.

Fixpoint lower (s : string) : string :=
  match s with
  | EmptyString => EmptyString
  | String c s' => String (lower_ascii c) (lower s')
  end.

(** [s.startswith(p)] *)
Definition startswith (s p : string) : bool := String.prefix p s.

(** [x in l] for a list of strings *)
Definition str_in (x : string) (l : list string) : bool :=
  existsb (String.eqb x) l.

(** Truth value of an [Optional[int]] *)
Definition truthy_opt_int (x : option Z) : bool :=
  match x with
  | None => false
  | Some i => negb (i =? 0)
  end.

(** ** Module constants (base.py, lines 278-287) *)

Definition CHECKSUM_HEXDIGITS : Z := 15.
Definition MD5_HEXDIGITS : Z := 32.

Definition _CHECKSUM_BITSIZE : Z := Z.shiftl CHECKSUM_HEXDIGITS 2.
Definition CHECKSUM_MASK : Z := 2 ^ _CHECKSUM_BITSIZE - 1.

Definition DEFAULT_DATETIME_PRECISION : Z := 6.
Definition DEFAULT_NUMERIC_PRECISION : Z := 24.

Definition TIMESTAMP_PRECISION_POS : Z := 20.

(** ** SQL values, rows and query syntax *)

(** A value of a result row, as the driver hands it over: SQL [NULL] is
    Python's [None]; a [DECIMAL] is [mantissa / 10^scale]. *)
Inductive Scalar : Type :=
  | SqlNull
  | SqlInt (i : Z)
  | SqlDecimal (mantissa : Z) (scale : nat)
  | SqlText (s : string).

Definition Row : Type := list Scalar.

Definition DbPath : Type := list string.

(** The query syntax of [data_diff.sql] as far as this module builds it:
    raw SQL text, [TableName(path)], [Select(columns, table, limit=...)] and
    [Explain(sql)]. *)
#[warnings="-register-all"]
Inductive Sql : Type :=
  | SqlCode (code : string)
  | TableName (path : DbPath)
  | Select (columns : list Sql) (table : Sql) (limit : option Z)
  | Explain (sql : Sql).

(** [isinstance(sql_ast, Select)] *)
Definition is_Select (sql_ast : Sql) : bool :=
  match sql_ast with
  | Select _ _ _ => true
  | _ => false
  end.

(** The [res_type] argument of [Database.query]: [int], [tuple],
    [List[int]], [List[str]], [List[Tuple]], [List[X]] for another [X], and
    anything else (the bare [list], [None], ...). *)
Inductive ResType : Type :=
  | RT_int
  | RT_tuple
  | RT_List_int
  | RT_List_str
  | RT_List_Tuple
  | RT_List_other
  | RT_other.

(** What [Database.query] returns. [QRaw] is the untouched answer of
    [_query], which is [None] for a statement that is not a [SELECT]. *)
Inductive QueryResult : Type :=
  | QNone
  | QInt (i : Z)
  | QRow (r : Row)
  | QScalars (l : list Scalar)
  | QRows (l : list Row)
  | QRaw (res : option (list Row)).

(** ** Column types *)

(** The column-type classes a dialect's [TYPE_CLASSES] table can name.
    Modelled from the spec: the class hierarchy of
    [data_diff/databases/database_types.py] is absent; the spec (sections 3
    and 9) gives it as the closed tagged variant Integer, Decimal, Float,
    Temporal, Text, UUID, Unknown.  [OtherClass] stands for a class outside
    the five families [_parse_type] tests for. *)
Inductive ColTypeClass : Type :=
  | TemporalClass (cls_name : string)
  | IntegerClass
  | DecimalClass
  | FloatClass
  | TextClass
  | OtherClass (cls_name : string).

(** Instances of the column types. *)
Inductive ColType : Type :=
  | Temporal (cls_name : string) (precision : Z) (rounds : bool)
  | Integer
  | Decimal (precision : Z)
  | Float (precision : Z)
  | Text
  | ColType_UUID
  | UnknownColType (type_repr : string).

(** [isinstance(v, Text)] *)
Definition is_Text (v : ColType) : bool :=
  match v with
  | Text => true
  | _ => false
  end.

(** ** The adapter object *)

(** The attributes and abstract methods of a [Database] instance that the
    base class reads: [name] is [type(self).__name__], [self_repr] is
    [str(self)], [_interactive] is [getattr(self, "_interactive", False)],
    [_query] is the dialect's execution of SQL text. *)
Record Database : Type := mk_Database {
  name : string;
  self_repr : string;
  default_schema : option string;
  TYPE_CLASSES : string -> option ColTypeClass;
  ROUNDS_ON_PREC_LOSS : bool;
  _interactive : bool;
  _query : string -> result (option (list Row))
}.

(** ** [_one] (base.py, lines 56-58) *)

(** [(x,) = seq]: unpacking fails with [ValueError] unless [seq] has
    exactly one element. *)
Definition _one {A : Type} (seq : list A) : result A :=
  match seq with
  | [x] => Ok x
  | [] => Raise (mk_exn ValueError "not enough values to unpack (expected 1, got 0)")
  | _ => Raise (mk_exn ValueError "too many values to unpack (expected 1)")
  end.

(** Iterating over the raw answer: [None] is not iterable. *)
Definition iter_rows (res : option (list Row)) : result (list Row) :=
  match res with
  | Some rows => Ok rows
  | None => Raise (mk_exn TypeError "'NoneType' object is not iterable")
  end.

(** [list(filter(f, l))], stopping at the first exception of [f]. *)
Fixpoint filter_result {A : Type} (f : A -> result bool) (l : list A)
    : result (list A) :=
  match l with
  | [] => Ok []
  | x :: l' =>
      b <- f x ;;
      ys <- filter_result f l' ;;
      Ok (if b then x :: ys else ys)
  end.

(** [[f(x) for x in l]], stopping at the first exception. *)
Fixpoint map_result {A B : Type} (f : A -> result B) (l : list A) : result (list B) :=
  match l with
  | [] => Ok []
  | x :: l' =>
      y <- f x ;;
      ys <- map_result f l' ;;
      Ok (y :: ys)
  end.

(** ** Table paths (base.py, lines 220-230) *)

Definition _normalize_table_path (self : Database) (path : DbPath) : result DbPath :=
  match path with
  | [table] =>
      match default_schema self with
      | Some schema => if truthy_str schema then Ok [schema; table] else Ok path
      | None => Ok path
      end
  | [_; _] => Ok path
  | _ =>
      Raise (mk_exn ValueError
        (name self ++ ": Bad table path for " ++ self_repr self ++ ": '"
         ++ join "." path ++ "'. Expected form: schema.table"))
  end.

(** ** Pagination (base.py, lines 232-236) *)

Definition offset_limit (offset limit : option Z) : result string :=
  if truthy_opt_int offset
  then Raise (mk_exn NotImplementedError "No support for OFFSET in query")
  else Ok ("LIMIT " ++ str_opt_int limit).

(** ** Dictionaries *)

(** A Python [dict] with string keys, in insertion order. *)
Definition Dict (V : Type) : Type := list (string * V).

Fixpoint dict_get {V : Type} (k : string) (d : Dict V) : option V :=
  match d with
  | [] => None
  | (k', v) :: d' => if String.eqb k k' then Some v else dict_get k d'
  end.

(** [k in d] *)
Definition dict_mem {V : Type} (k : string) (d : Dict V) : bool :=
  match dict_get k d with
  | Some _ => true
  | None => false
  end.

(** [d[k] = v]: an existing key keeps its place, a new key goes last. *)
Fixpoint dict_set {V : Type} (k : string) (v : V) (d : Dict V) : Dict V :=
  match d with
  | [] => [(k, v)]
  | (k', v') :: d' =>
      if String.eqb k k' then (k', v) :: d' else (k', v') :: dict_set k v d'
  end.

(** ** Sequences *)

(** [zip(r, cols)] followed by prepending: one step of the transposition [zip]. *)
Fixpoint zip_cons {A : Type} (r : list A) (cols : list (list A)) : list (list A) :=
  match r, cols with
  | x :: r', c :: cols' => (x :: c) :: zip_cons r' cols'
  | _, _ => []
  end.

(** [list(zip] of all rows[)]: the columns of a list of rows, cut at the shortest
    row; no rows give no columns. *)
Fixpoint zip_star {A : Type} (rows : list (list A)) : list (list A) :=
  match rows with
  | [] => []
  | [r] => map (fun x => [x]) r
  | r :: rest => zip_cons r (zip_star rest)
  end.

(** Modelled from the spec: [safezip] of [data_diff/utils.py] is absent and
    the spec does not describe it; it is taken as [zip] guarded by an
    assertion that both sequences have the same length, as its name and its
    use in [_refine_coltypes] say. *)
Definition safezip {A B : Type} (xs : list A) (ys : list B) : result (list (A * B)) :=
  if Nat.eqb (List.length xs) (List.length ys)
  then Ok (combine xs ys)
  else Raise (mk_exn AssertionError "").

(** ** The [Database] base class (base.py, lines 68-239) *)

(** A row of [information_schema.columns] as [select_table_schema] projects
    it: [column_name, data_type, datetime_precision, numeric_precision,
    numeric_scale]. *)
Record SchemaRow : Type := mk_SchemaRow {
  column_name : string;
  data_type : string;
  datetime_precision : option Z;
  numeric_precision : option Z;
  numeric_scale : option Z
}.

Definition opt_int_of_scalar (v : Scalar) : option (option Z) :=
  match v with
  | SqlNull => Some None
  | SqlInt i => Some (Some i)
  | _ => None
  end.

(** The arguments of the call [self._parse_type(path, *row)] for a raw
    row: a row of 2 to 5 values fills the parameters from [col_name] on and
    the others keep their default [None]; fewer or more values are a
    [TypeError] of the call, and an empty row already fails at [row[0]].
    The declared argument types are text, text and three integers or
    [None]; a row with other values is marked [NotEmbedded]. *)
Definition schema_row_of (r : Row) : result SchemaRow :=
  match r with
  | [] => Raise (mk_exn IndexError "tuple index out of range")
  | [_] =>
      Raise (mk_exn TypeError
        "_parse_type() missing 1 required positional argument: 'type_repr'")
  | c :: t :: rest =>
      if Nat.ltb 3 (List.length rest) then
        Raise (mk_exn TypeError
          "_parse_type() takes from 4 to 7 positional arguments but more were given")
      else
        match c, t,
              opt_int_of_scalar (nth 0 rest SqlNull),
              opt_int_of_scalar (nth 1 rest SqlNull),
              opt_int_of_scalar (nth 2 rest SqlNull) with
        | SqlText c', SqlText t', Some dp, Some np, Some ns =>
            Ok (mk_SchemaRow c' t' dp np ns)
        | _, _, _, _, _ =>
            Raise (mk_exn NotEmbedded "arguments outside the declared types")
        end
  end.

Section Adapter.

(** Functions of other modules that the class calls. [math_log x b] is
    the real number denoted by the float [math.log(x, b)] for an [int] [x];
    [math_log_neg p] is what [math.log(2**p, 10)] comes to for [p < 0],
    where [2**p] is a float: the real its result denotes, or the exception
    raised (a [ValueError] once [2**p] has underflowed to [0.0]);
    [compile] is [Compiler(self).compile]; [int_of_text] is [int(s)] for a
    [str]; [is_uuid] is [data_diff.utils.is_uuid], which may raise (it
    does on [None]); [str_lower] is [str.lower()]. *)
Variable math_log : Z -> Z -> R.
Variable math_log_neg : Z -> result R.
Variable compile : Database -> Sql -> string.
Variable int_of_text : string -> result Z.
Variable is_uuid : Scalar -> result bool.
Variable str_lower : string -> string.

(** [int(v)] *)
Definition py_int (v : Scalar) : result Z :=
  match v with
  | SqlNull =>
      Raise (mk_exn TypeError "int() argument must be a string or a number, not 'NoneType'")
  | SqlInt i => Ok i
  | SqlDecimal m sc => Ok (Z.quot m (10 ^ Z.of_nat sc))
  | SqlText s => int_of_text s
  end.

(** The interactive gate of [Database.query] (lines 89-95): in
    interactive mode a [Select] is explained first, and [sys.exit(1)]
    ends the program unless the user's [answer] is yes. *)
Definition confirm_interactive (self : Database) (answer : string)
    (sql_ast : Sql) : result unit :=
  if (_interactive self && is_Select sql_ast)%bool then
    let explained_sql := compile self (Explain sql_ast) in
    _ <- _query self explained_sql ;;
    if negb (str_in (lower answer) ["y"; "yes"])
    then Raise (mk_exn SystemExit "1")
    else Ok tt
  else Ok tt.

(** [Database.query]; [answer] is what the user types at the
    [Continue? [y/n]] prompt, read only in interactive mode. *)
Definition query (self : Database) (answer : string)
    (sql_ast : Sql) (res_type : ResType) : result QueryResult :=
  let sql_code := compile self sql_ast in
  _ <- confirm_interactive self answer sql_ast ;;
  res <- _query self sql_code ;;
  match res_type with
  | RT_int =>
      rows <- iter_rows res ;;
      row <- _one rows ;;
      v <- _one row ;;
      match v with
      | SqlNull => Ok QNone
      | _ => i <- py_int v ;; Ok (QInt i)
      end
  | RT_tuple =>
      match res with
      | None => Raise (mk_exn TypeError "object of type 'NoneType' has no len()")
      | Some [r] => Ok (QRow r)
      | Some _ => Raise (mk_exn AssertionError sql_code)
      end
  | RT_List_int | RT_List_str =>
      rows <- iter_rows res ;;
      l <- map_result _one rows ;;
      Ok (QScalars l)
  | RT_List_Tuple =>
      rows <- iter_rows res ;;
      Ok (QRows rows)
  | RT_List_other => Raise (mk_exn ValueError "res_type")
  | RT_other => Ok (QRaw res)
  end.

(** [_convert_db_precision_to_digits], for [p >= 0] (Python's [2**p] is a
    float for a negative [p]). *)
Definition _convert_db_precision_to_digits (p : Z) : Z :=
  Zfloor (math_log (2 ^ p) 10).

(** The call [self._convert_db_precision_to_digits(p)] for any [int]
    [p]: for a negative [p] the argument of [math.log] is a float. *)
Definition convert_db_precision (p : Z) : result Z :=
  if 0 <=? p then Ok (_convert_db_precision_to_digits p)
  else (y <- math_log_neg p ;; Ok (Zfloor y)).

Definition _parse_type_repr (self : Database) (type_repr : string)
    : option ColTypeClass :=
  TYPE_CLASSES self type_repr.

Definition _parse_type (self : Database) (table_path : DbPath)
    (col_name type_repr : string)
    (datetime_precision numeric_precision numeric_scale : option Z)
    : result ColType :=
  match _parse_type_repr self type_repr with
  | None => Ok (UnknownColType type_repr)
  | Some (TemporalClass cls) =>
      Ok (Temporal cls
            (match datetime_precision with
             | Some d => d
             | None => DEFAULT_DATETIME_PRECISION
             end)
            (ROUNDS_ON_PREC_LOSS self))
  | Some IntegerClass => Ok Integer
  | Some DecimalClass =>
      match numeric_scale with
      | None =>
          Raise (mk_exn ValueError
            (name self ++ ": Unexpected numeric_scale is NULL, for column "
             ++ join "." table_path ++ "." ++ col_name
             ++ " of type " ++ type_repr ++ "."))
      | Some scale => Ok (Decimal scale)
      end
  | Some FloatClass =>
      digits <- convert_db_precision
                  (match numeric_precision with
                   | Some p => p
                   | None => DEFAULT_NUMERIC_PRECISION
                   end) ;;
      Ok (Float digits)
  | Some TextClass => Ok Text
  | Some (OtherClass cls) =>
      Raise (mk_exn TypeError
        ("Parsing " ++ type_repr ++ " returned an unknown type '" ++ cls ++ "'."))
  end.

(** [select_table_schema]; the two-name unpacking of the normalised path
    fails on a path that stayed at one component. *)
Definition select_table_schema (self : Database) (path : DbPath) : result string :=
  p <- _normalize_table_path self path ;;
  match p with
  | [schema; table] =>
      Ok ("SELECT column_name, data_type, datetime_precision, numeric_precision, numeric_scale FROM information_schema.columns "
          ++ "WHERE table_name = '" ++ table ++ "' AND table_schema = '" ++ schema ++ "'")
  | _ => Raise (mk_exn ValueError "not enough values to unpack (expected 2, got 1)")
  end.

Definition normalize_uuid (value : string) (coltype : ColType) : string :=
  "TRIM(" ++ value ++ ")".

(** The state [_refine_coltypes] works on: the column dict it mutates and
    the warnings it has logged. *)
Record RefineState : Type := mk_RefineState {
  col_dict : Dict ColType;
  warnings : list string
}.

(** [is_uuid v] returned [True]. *)
Definition is_uuid_true (v : Scalar) : bool :=
  match is_uuid v with
  | Ok b => b
  | Raise _ => false
  end.

(** [is_uuid] returns a truth value on [v]. *)
Definition returns (v : Scalar) : Prop := exists b, is_uuid v = Ok b.

(** A sample that has a UUID and only UUIDs, and one that has a UUID and
    something else. *)
Definition uuid_sample (samples : list Scalar) : bool :=
  existsb is_uuid_true samples && forallb is_uuid_true samples.

Definition mixed_sample (samples : list Scalar) : bool :=
  existsb is_uuid_true samples && negb (forallb is_uuid_true samples).

(** The text of the warning about a column with mixed samples. *)
Definition mixed_warning (table_path : DbPath) (col_name : string) : string :=
  "Mixed UUID/Non-UUID values detected in column "
  ++ join "." table_path ++ "." ++ col_name ++ ", disabling UUID support.".

(** The body of the loop over [(col_name, samples)]; an exception of
    [is_uuid] leaves [filter] and the loop. *)
Definition refine_column (table_path : DbPath) (st : RefineState)
    (col_name : string) (samples : list Scalar) : RefineState * result unit :=
  match filter_result is_uuid samples with
  | Raise e => (st, Raise e)
  | Ok [] => (st, Ok tt)
  | Ok (u :: us) =>
      let uuid_samples := u :: us in
      if negb (Nat.eqb (List.length uuid_samples) (List.length samples)) then
        (mk_RefineState (col_dict st)
           (warnings st ++ [mixed_warning table_path col_name])%list,
         Ok tt)
      else if dict_mem col_name (col_dict st) then
        (mk_RefineState (dict_set col_name ColType_UUID (col_dict st)) (warnings st),
         Ok tt)
      else (st, Raise (mk_exn AssertionError ""))
  end.

Fixpoint refine_loop (table_path : DbPath) (st : RefineState)
    (pairs : list (string * list Scalar)) : RefineState * result unit :=
  match pairs with
  | [] => (st, Ok tt)
  | (col_name, samples) :: pairs' =>
      match refine_column table_path st col_name samples with
      | (st', Ok _) => refine_loop table_path st' pairs'
      | (st', Raise e) => (st', Raise e)
      end
  end.

(** The names of the [Text] columns, in dict order. *)
Definition text_columns_of (d : Dict ColType) : list string :=
  map fst (filter (fun kv => is_Text (snd kv)) d).

(** The sampling query [_refine_coltypes] issues. *)
Definition sample_select (table_path : DbPath) (text_columns : list string) : Sql :=
  let fields := map (fun c => SqlCode (normalize_uuid c ColType_UUID)) text_columns in
  Select fields (TableName table_path) (Some 16).

Definition _refine_coltypes (self : Database) (answer : string)
    (table_path : DbPath) (d : Dict ColType) : RefineState * result unit :=
  let st := mk_RefineState d [] in
  let text_columns := text_columns_of d in
  match text_columns with
  | [] => (st, Ok tt)
  | _ :: _ =>
      match
        (res <- query self answer (sample_select table_path text_columns) RT_other ;;
         samples_by_row <- match res with
                           | QRaw r => iter_rows r
                           | _ => Ok []
                           end ;;
         let samples_by_col := zip_star samples_by_row in
         safezip text_columns samples_by_col)
      with
      | Raise e => (st, Raise e)
      | Ok pairs => refine_loop table_path st pairs
      end
  end.

(** The rows the sampling query of [_refine_coltypes] brought back, none
    if it was not issued or failed. *)
Definition sampled_rows (self : Database) (answer : string)
    (table_path : DbPath) (d : Dict ColType) : list Row :=
  match query self answer (sample_select table_path (text_columns_of d)) RT_other with
  | Ok (QRaw (Some rows)) => rows
  | _ => []
  end.

(** The sampled values of column [k]: its column of the answer. *)
Definition column_samples (text_columns : list string) (rows : list Row)
    (k : string) : list Scalar :=
  match dict_get k (combine text_columns (zip_star rows)) with
  | Some samples => samples
  | None => []
  end.

(** What SQL promises about the answer to a [Select]: each row has one
    value per selected column, and there are at most [LIMIT] rows. *)
Definition honours_select (self : Database) (q : Sql) : Prop :=
  match q with
  | Select columns _ limit =>
      forall rows,
        _query self (compile self q) = Ok (Some rows) ->
        Forall (fun r : Row => List.length r = List.length columns) rows /\
        (forall n, limit = Some n -> Z.of_nat (List.length rows) <= n)
  | _ => True
  end.

(** The dict comprehension [{row[0]: self._parse_type(path, *row) ...}]
    over rows already read as schema rows. *)
Fixpoint parse_rows (self : Database) (path : DbPath) (rows : list SchemaRow)
    (acc : Dict ColType) : result (Dict ColType) :=
  match rows with
  | [] => Ok acc
  | r :: rows' =>
      t <- _parse_type self path (column_name r) (data_type r)
             (datetime_precision r) (numeric_precision r) (numeric_scale r) ;;
      parse_rows self path rows' (dict_set (column_name r) t acc)
  end.

(** [r[0].lower()] for a raw row. *)
Definition row_name_lower (r : Row) : result string :=
  match r with
  | [] => Raise (mk_exn IndexError "tuple index out of range")
  | SqlText c :: _ => Ok (str_lower c)
  | SqlNull :: _ =>
      Raise (mk_exn AttributeError "'NoneType' object has no attribute 'lower'")
  | SqlInt _ :: _ =>
      Raise (mk_exn AttributeError "'int' object has no attribute 'lower'")
  | SqlDecimal _ _ :: _ =>
      Raise (mk_exn AttributeError "'decimal.Decimal' object has no attribute 'lower'")
  end.

(** [[r for r in rows if r[0].lower() in accept]] *)
Fixpoint filter_rows (accept : list string) (rows : list Row) : result (list Row) :=
  match rows with
  | [] => Ok []
  | r :: rows' =>
      n <- row_name_lower r ;;
      kept <- filter_rows accept rows' ;;
      Ok (if str_in n accept then r :: kept else kept)
  end.

(** The rows after the [filter_columns] step (lines 183-185). *)
Definition filter_schema_rows (filter_columns : option (list string))
    (rows : list Row) : result (list Row) :=
  match filter_columns with
  | None => Ok rows
  | Some cols => filter_rows (map str_lower cols) rows
  end.

(** The dict comprehension over the raw rows that were kept: each row is
    passed to [_parse_type] in turn. *)
Fixpoint parse_raw_rows (self : Database) (path : DbPath) (rows : list Row)
    (acc : Dict ColType) : result (Dict ColType) :=
  match rows with
  | [] => Ok acc
  | r :: rows' =>
      sr <- schema_row_of r ;;
      t <- _parse_type self path (column_name sr) (data_type sr)
             (datetime_precision sr) (numeric_precision sr) (numeric_scale sr) ;;
      parse_raw_rows self path rows' (dict_set (column_name sr) t acc)
  end.

Definition query_table_schema (self : Database) (answer : string)
    (path : DbPath) (filter_columns : option (list string))
    : result (Dict ColType) :=
  sql <- select_table_schema self path ;;
  res <- query self answer (SqlCode sql) RT_other ;;
  match res with
  | QRaw (Some (r :: raw_rows)) =>
      rows <- filter_schema_rows filter_columns (r :: raw_rows) ;;
      d <- parse_raw_rows self path rows [] ;;
      match _refine_coltypes self answer path d with
      | (st, Ok _) => Ok (col_dict st)
      | (_, Raise e) => Raise e
      end
  | _ =>
      Raise (mk_exn RuntimeError
        (name self ++ ": Table '" ++ join "." path
         ++ "' does not exist, or has no columns"))
  end.

End Adapter.

(** ** [ThreadedDatabase] (base.py, lines 242-275) *)

(** A driver connection: [conn_execute sql] is [c = conn.cursor();
    c.execute(sql)] followed by the rows [c.fetchall()] would give. *)
Record Connection : Type := mk_Connection {
  conn_execute : string -> result (list Row)
}.

(** [_query_conn] (base.py, lines 61-65) *)
Definition _query_conn (conn : Connection) (sql_code : string)
    : result (option (list Row)) :=
  rows <- conn_execute conn sql_code ;;
  if startswith (lower sql_code) "select" then Ok (Some rows) else Ok None.

(** The mutable state of a [ThreadedDatabase]: the attribute [_init_error],
    [thread_local.conn] as seen by each worker thread, and the state of the
    [ThreadPoolExecutor] held in [_queue] (which worker threads exist and
    whether the pool is broken).  [executed] is a ghost log of the statements
    that reached a connection. *)
Record ThreadedDatabase : Type := mk_ThreadedDatabase {
  thread_count : Z;
  _init_error : option exn;
  thread_local_conn : nat -> option Connection;
  pool_started : nat -> bool;
  pool_broken : bool;
  executed : list (nat * string)
}.

Definition __init__ (thread_count : Z) : ThreadedDatabase :=
  mk_ThreadedDatabase thread_count None (fun _ => None) (fun _ => false) false [].

Definition update {A : Type} (f : nat -> A) (w : nat) (a : A) : nat -> A :=
  fun w' => if Nat.eqb w' w then a else f w'.

Section Threaded.

(** The abstract method [create_connection], as it turns out in each
    worker thread. *)
Variable create_connection : nat -> result Connection.

(** [set_conn], run in worker thread [w]. *)
Definition set_conn (w : nat) (self : ThreadedDatabase)
    : ThreadedDatabase * result unit :=
  match thread_local_conn self w with
  | Some _ => (self, Raise (mk_exn AssertionError ""))
  | None =>
      match create_connection w with
      | Ok conn =>
          (mk_ThreadedDatabase (thread_count self) (_init_error self)
             (update (thread_local_conn self) w (Some conn))
             (pool_started self) (pool_broken self) (executed self),
           Ok tt)
      | Raise e =>
          match exn_class e with
          | ModuleNotFoundError =>
              (mk_ThreadedDatabase (thread_count self) (Some e)
                 (thread_local_conn self)
                 (pool_started self) (pool_broken self) (executed self),
               Ok tt)
          | _ => (self, Raise e)
          end
      end
  end.

(** [_query_in_worker], run in worker thread [w]. *)
Definition _query_in_worker (w : nat) (sql_code : string)
    (self : ThreadedDatabase)
    : ThreadedDatabase * result (option (list Row)) :=
  match _init_error self with
  | Some e => (self, Raise e)
  | None =>
      match thread_local_conn self w with
      | None =>
          (self, Raise (mk_exn AttributeError
                          "'_thread._local' object has no attribute 'conn'"))
      | Some conn =>
          (mk_ThreadedDatabase (thread_count self) (_init_error self)
             (thread_local_conn self) (pool_started self) (pool_broken self)
             (executed self ++ [(w, sql_code)])%list,
           _query_conn conn sql_code)
      end
  end.

(** The executor starting worker thread [w]: the thread runs the
    initializer [set_conn] once; as [concurrent.futures] documents, an
    initializer that raises breaks the pool. *)
Definition start_worker (w : nat) (self : ThreadedDatabase) : ThreadedDatabase :=
  if pool_started self w then self
  else
    match set_conn w self with
    | (s, Ok _) =>
        mk_ThreadedDatabase (thread_count s) (_init_error s)
          (thread_local_conn s) (update (pool_started s) w true)
          (pool_broken s) (executed s)
    | (s, Raise _) =>
        mk_ThreadedDatabase (thread_count s) (_init_error s)
          (thread_local_conn s) (update (pool_started s) w true)
          true (executed s)
    end.

(** [ThreadedDatabase._query]: [_queue.submit(...)] and [r.result()],
    where [w] is the worker thread the executor hands the task to.  A
    broken pool fails the task with [BrokenThreadPool]. *)
Definition threaded_query (w : nat) (sql_code : string)
    (self : ThreadedDatabase)
    : ThreadedDatabase * result (option (list Row)) :=
  if pool_broken self then (self, Raise (mk_exn BrokenThreadPool ""))
  else
    let s := start_worker w self in
    if pool_broken s then (s, Raise (mk_exn BrokenThreadPool ""))
    else _query_in_worker w sql_code s.

(** A sequence of queries, each with the worker that serves it. *)
Fixpoint run_queries (qs : list (nat * string)) (self : ThreadedDatabase)
    : ThreadedDatabase * list (result (option (list Row))) :=
  match qs with
  | [] => (self, [])
  | (w, sql_code) :: qs' =>
      let (s, r) := threaded_query w sql_code self in
      let (s', rs) := run_queries qs' s in
      (s', r :: rs)
  end.

End Threaded.

(** ** The key-space partitioner [split_space] *)

(** How [round] settles a tie: to the even neighbour (Python) or upwards. *)
Inductive tie_rule : Type :=
  | HalfEven
  | HalfUp.

(** [round(a / b)] over exact rationals, for [b > 0]. *)
Definition round_div (t : tie_rule) (a b : Z) : Z :=
  let q := a / b in
  let r := a mod b in
  if 2 * r <? b then q
  else if b <? 2 * r then q + 1
  else match t with
       | HalfEven => if Z.even q then q else q + 1
       | HalfUp => q + 1
       end.

(** Modelled from the spec: [split_space] of [data_diff/diff_tables.py] is
    absent; section 4.3 gives
    [points[i] = lo + round((i+1) * (hi - lo) / (n + 1))] for [0 <= i < n]. *)
Definition split_space (t : tie_rule) (lo hi : Z) (n : nat) : list Z :=
  map (fun i => lo + round_div t ((Z.of_nat i + 1) * (hi - lo)) (Z.of_nat n + 1))
      (seq 0 n).

(** ** Segment checksums *)

(** Modelled from the spec: [TableSegment.checksum] of
    [data_diff/diff_tables.py] is absent; section 4.2 gives it as the
    [int] query of [SUM] over the per-row checksum terms of the segment,
    and SQL's [SUM] of zero rows is [NULL]. *)
Definition sql_sum (terms : list Z) : Scalar :=
  match terms with
  | [] => SqlNull
  | _ :: _ => SqlInt (fold_right Z.add 0 terms)
  end.

(** Modelled from the spec: the engine's answer to the checksum query of a
    segment (section 4.2), one row holding [SUM] over the per-row terms. *)
Definition checksum_answer (terms : list Z) : result (option (list Row)) :=
  Ok (Some [[sql_sum terms]]).

(** ** The error kinds of the spec *)

(** Modelled from the spec: section 7 declares these error kinds. *)
Definition spec_error_kinds : list exn_kind :=
  [ConnectError; QueryError; ValueError; TypeError; NotImplementedError].

(** ** Decimal digits of a power of two, over the integers *)

Fixpoint floor_log10_aux (fuel : nat) (x : Z) : Z :=
  match fuel with
  | O => 0
  | S fuel' => if x <? 10 then 0 else 1 + floor_log10_aux fuel' (x / 10)
  end.

(** [floor(log10(x))] for [x >= 1], by counting divisions by ten. *)
Definition floor_log10 (x : Z) : Z :=
  floor_log10_aux (S (Z.to_nat (Z.log2 x))) x.

(** With [59/196 <= log10(2) <= 146/485], [p * log10(2)] keeps a distance
    of more than [1/256] from the integers [d] below and [d + 1] above it,
    where [d = floor_log10 (2^p)]: the check, in integers, that
    [d + 1/256 <= 59 p / 196] and [146 p / 485 < d + 1 - 1/256]. *)
Definition log10_margin_ok (p : Z) : bool :=
  let d := floor_log10 (2 ^ p) in
  (196 * (256 * d + 1) <=? 59 * 256 * p) &&
  (146 * 256 * p <? 485 * (256 * d + 255)).

(** The logarithm without rounding error, [log(x) / log(b)]. *)
Definition exact_log (x b : Z) : R := (ln (IZR x) / ln (IZR b))%R.

(** The same for the float [2**p] with [p < 0], which is [0.0] below the
    smallest subnormal [2**-1074]. *)
Definition exact_log_neg (p : Z) : result R :=
  if p <? -1074 then Raise (mk_exn ValueError "math domain error")
  else Ok (- ln (IZR (2 ^ (- p))) / ln 10)%R.

(** ** Captured initialization errors *)

(** An initialization error counts as captured, seen from state [s0], if
    [_init_error] already holds it there or if some worker's
    [create_connection] raises it as a [ModuleNotFoundError]. *)
Definition captured (create_connection : nat -> result Connection)
    (s0 : ThreadedDatabase) (e : exn) : Prop :=
  _init_error s0 = Some e \/
  exists w, create_connection w = Raise e /\ exn_class e = ModuleNotFoundError.

(** ** Concrete databases and inputs *)

(** The base class as it stands: no default schema, no type table. *)
Definition db_without_schema : Database :=
  mk_Database "Database" "<Database>" None (fun _ => None) false false
    (fun _ => Ok (Some [])).

(** A dialect with a default schema. *)
Definition db_public : Database :=
  mk_Database "PostgreSQL" "<PostgreSQL>" (Some "public") (fun _ => None)
    false false (fun _ => Ok (Some [])).

(** [Compiler.compile] on SQL text is the text itself; an AST is rendered
    by a placeholder, enough for databases that ignore the statement. *)
Definition compile_text (self : Database) (sql_ast : Sql) : string :=
  match sql_ast with
  | SqlCode code => code
  | _ => "SELECT ..."
  end.

Definition int_of_text_never (s : string) : result Z :=
  Raise (mk_exn ValueError "invalid literal for int() with base 10").

(** A database whose every statement answers with one row holding
    [NULL], as [SUM] over an empty segment does. *)
Definition db_null_sum : Database :=
  mk_Database "MySQL" "<MySQL>" None (fun _ => None) false false
    (fun _ => checksum_answer []).

(** A dialect that knows the types [decimal] and [text]. *)
Definition db_typed : Database :=
  mk_Database "PostgreSQL" "<PostgreSQL>" (Some "public")
    (fun t => if String.eqb t "decimal" then Some DecimalClass
              else if String.eqb t "text" then Some TextClass
              else None)
    true false (fun _ => Ok (Some [])).

(** Hexadecimal digits, and a text without its hyphens. *)
Definition is_hex_digit (c : ascii) : bool :=
  let n := nat_of_ascii c in
  ((Nat.leb 48 n && Nat.leb n 57) || (Nat.leb 97 n && Nat.leb n 102)
   || (Nat.leb 65 n && Nat.leb n 70))%bool.

Fixpoint without_hyphens (s : string) : list ascii :=
  match s with
  | EmptyString => []
  | String c s' =>
      if Ascii.eqb c "-"%char then without_hyphens s' else c :: without_hyphens s'
  end.

(** [is_uuid] of [data_diff.utils] on the values of the examples:
    [uuid.UUID(u)] under a handler for [ValueError] only.  A text of 32
    hexadecimal digits, hyphens apart, is a UUID; a value that is not text
    makes [uuid.UUID] raise, [TypeError] on [None], and [is_uuid] lets that
    through. *)
Definition is_uuid_text (v : Scalar) : result bool :=
  match v with
  | SqlText s =>
      let digits := without_hyphens s in
      Ok (Nat.eqb (List.length digits) 32 && forallb is_hex_digit digits)%bool
  | SqlNull =>
      Raise (mk_exn TypeError
        "one of the hex, bytes, bytes_le, fields, or int arguments must be given")
  | SqlInt _ =>
      Raise (mk_exn AttributeError "'int' object has no attribute 'replace'")
  | SqlDecimal _ _ =>
      Raise (mk_exn AttributeError
        "'decimal.Decimal' object has no attribute 'replace'")
  end.

(** A table with an integer column and two text columns, and a database
    that answers the sampling query with two rows: the first text column
    holds UUIDs, the second holds one UUID and one other text. *)
Definition sample_col_dict : Dict ColType :=
  [("id", Integer); ("uid", Text); ("note", Text)].

Definition db_samples : Database :=
  mk_Database "PostgreSQL" "<PostgreSQL>" (Some "public") (fun _ => None)
    true false
    (fun _ => Ok (Some
       [[SqlText "6f1b2c3d-0000-4000-8000-00000000000a";
         SqlText "6f1b2c3d-0000-4000-8000-00000000000b"];
        [SqlText "6f1b2c3d-0000-4000-8000-00000000000c";
         SqlText "hello"]])).

(** Two ways [create_connection] can fail in every worker: the driver
    module is not installed, or the server refuses the connection. *)
Definition missing_driver_error : exn :=
  mk_exn ModuleNotFoundError "No module named 'psycopg2'".

Definition missing_driver (w : nat) : result Connection :=
  Raise missing_driver_error.

Definition connection_refused_error : exn :=
  mk_exn ConnectError "connection refused".

Definition connection_refused (w : nat) : result Connection :=
  Raise connection_refused_error.

(** ** Table names (base.py, lines 27-28 and 229-230) *)

(** [s.split(sep)] for a one-character separator: every occurrence of
    [sep] cuts, and the empty string gives one empty piece. *)
Fixpoint str_split (sep : ascii) (s : string) : list string :=
  match s with
  | EmptyString => [EmptyString]
  | String c s' =>
      if Ascii.eqb c sep then EmptyString :: str_split sep s'
      else match str_split sep s' with
           | x :: xs => String c x :: xs
           | [] => [String c EmptyString]
           end
  end.

(** [parse_table_name(t)], also the method [Database.parse_table_name]:
    [tuple(t.split("."))]. *)
Definition parse_table_name (t : string) : DbPath := str_split "."%char t.

(** The number of occurrences of a character in a string. *)
Fixpoint count_char (c : ascii) (s : string) : nat :=
  match s with
  | EmptyString => 0
  | String c' s' => (if Ascii.eqb c' c then 1 else 0) + count_char c s'
  end.

(** ** [import_helper] (base.py, lines 31-45) *)

Definition newline : string := String (ascii_of_nat 10) EmptyString.

(** [import_helper(package, text)(f)()], where [f_result] is what the call
    [f()] comes to: a [ModuleNotFoundError] is raised again with the hint
    appended to its text. *)
Definition import_helper {A : Type} (package : option string) (text : string)
    (f_result : result A) : result A :=
  match f_result with
  | Ok r => Ok r
  | Raise e =>
      match exn_class e with
      | ModuleNotFoundError =>
          let s :=
            match package with
            | Some p =>
                if truthy_str p
                then text ++ "You can install it using 'pip install data-diff["
                     ++ p ++ "]'."
                else text
            | None => text
            end in
          Raise (mk_exn ModuleNotFoundError
                   (exn_msg e ++ newline ++ newline ++ s ++ newline))
      | _ => Raise e
      end
  end.


(** A dialect with a type table for each family of column types. *)
Definition db_all_types : Database :=
  mk_Database "PostgreSQL" "<PostgreSQL>" (Some "public")
    (fun t => if String.eqb t "integer" then Some IntegerClass
              else if String.eqb t "numeric" then Some DecimalClass
              else if String.eqb t "real" then Some FloatClass
              else if String.eqb t "timestamp" then Some (TemporalClass "Timestamp")
              else if String.eqb t "text" then Some TextClass
              else None)
    true false (fun _ => Ok (Some [])).


(** A database in interactive mode, and one that answers every statement
    with two one-column rows. *)
Definition db_interactive : Database :=
  mk_Database "MySQL" "<MySQL>" None (fun _ => None) false true
    (fun _ => Ok (Some [[SqlInt 1]])).

Definition db_two_rows : Database :=
  mk_Database "MySQL" "<MySQL>" None (fun _ => None) false false
    (fun _ => Ok (Some [[SqlInt 1]; [SqlInt 2]])).


(** A connection that answers every statement with one row, and a
    [create_connection] that opens it in every worker. *)
Definition one_row_connection : Connection :=
  mk_Connection (fun _ => Ok [[SqlInt 1]]).

Definition connects (w : nat) : result Connection := Ok one_row_connection.

(** A [create_connection] wrapped by [import_helper] whose driver module
    is missing. *)
Definition missing_driver_with_hint (w : nat) : result Connection :=
  import_helper (Some "postgresql") "" (missing_driver w).


(** ** What [query_table_schema] keeps of the schema rows *)

(** The test [r[0].lower() in accept] of [query_table_schema] on a raw
    row that starts with its column name, with no test at all when
    [filter_columns] is [None]. *)
Definition kept_by_filter (str_lower : string -> string)
    (filter_columns : option (list string)) (r : Row) : bool :=
  match filter_columns with
  | None => true
  | Some cols =>
      match r with
      | SqlText c :: _ => str_in (str_lower c) (map str_lower cols)
      | _ => false
      end
  end.

(** A raw row that starts with a text value, its column name. *)
Definition named_row (r : Row) : Prop :=
  exists c rest, r = SqlText c :: rest.

(** [self._parse_type(path, *row)] *)
Definition parse_row (math_log : Z -> Z -> R) (math_log_neg : Z -> result R)
    (self : Database) (path : DbPath) (r : SchemaRow) : result ColType :=
  _parse_type math_log math_log_neg self path (column_name r) (data_type r)
    (datetime_precision r) (numeric_precision r) (numeric_scale r).

(** [l] is [qs] with some elements left out. *)
Inductive subsequence {A : Type} : list A -> list A -> Prop :=
  | subsequence_nil : subsequence [] []
  | subsequence_skip (x : A) (l qs : list A) :
      subsequence l qs -> subsequence l (x :: qs)
  | subsequence_take (x : A) (l qs : list A) :
      subsequence l qs -> subsequence (x :: l) (x :: qs).

(** The last row of [rows] that names column [k]. *)
Definition last_named (k : string) (rows : list SchemaRow) : option SchemaRow :=
  find (fun r => String.eqb (column_name r) k) (rev rows).

(** A database whose schema query answers with three columns, the first
    of them listed twice with different types. *)
Definition db_three_columns : Database :=
  mk_Database "PostgreSQL" "<PostgreSQL>" (Some "public")
    (TYPE_CLASSES db_all_types) true false
    (fun _ => Ok (Some
       [[SqlText "id"; SqlText "numeric"; SqlNull; SqlInt 10; SqlInt 2];
        [SqlText "Price"; SqlText "numeric"; SqlNull; SqlInt 10; SqlInt 2];
        [SqlText "id"; SqlText "integer"; SqlNull; SqlInt 32; SqlInt 0]])).

Definition three_schema_rows : list SchemaRow :=
  [mk_SchemaRow "id" "numeric" None (Some 10) (Some 2);
   mk_SchemaRow "Price" "numeric" None (Some 10) (Some 2);
   mk_SchemaRow "id" "integer" None (Some 32) (Some 0)].


(** A database whose schema query lists a [numeric] column without scale
    between two sound columns. *)
Definition db_decimal_without_scale : Database :=
  mk_Database "PostgreSQL" "<PostgreSQL>" (Some "public")
    (TYPE_CLASSES db_all_types) true false
    (fun _ => Ok (Some
       [[SqlText "id"; SqlText "integer"; SqlNull; SqlInt 32; SqlInt 0];
        [SqlText "price"; SqlText "numeric"; SqlNull; SqlInt 10; SqlNull];
        [SqlText "note"; SqlText "text"; SqlNull; SqlNull; SqlNull]])).


(** Two text columns, and databases whose sample holds a [NULL]: one
    answers the sampling query with the single row [(NULL, uuid)], the other
    with the two one-column rows [uuid] and [NULL]. *)
Definition two_text_columns : Dict ColType := [("a", Text); ("b", Text)].

Definition db_null_first : Database :=
  mk_Database "PostgreSQL" "<PostgreSQL>" (Some "public") (fun _ => None)
    true false
    (fun _ => Ok (Some
       [[SqlNull; SqlText "6f1b2c3d-0000-4000-8000-00000000000a"]])).

Definition db_uuid_then_null : Database :=
  mk_Database "PostgreSQL" "<PostgreSQL>" (Some "public") (fun _ => None)
    true false
    (fun _ => Ok (Some
       [[SqlText "6f1b2c3d-0000-4000-8000-00000000000a"]; [SqlNull]])).


(** ** Theorems *)

(** C1: the checksum constants describe a 60-bit checksum: with
    [CHECKSUM_HEXDIGITS = 15] the bit size is 60, the mask is [2^60 - 1],
    and masking any integer gives its residue modulo [2^60], which lies in
    [[0, 2^60)]. *)
Theorem checksum_mask_60_bits :
  CHECKSUM_HEXDIGITS = 15 /\
  _CHECKSUM_BITSIZE = 60 /\
  CHECKSUM_MASK = 2 ^ 60 - 1 /\
  forall v : Z,
    Z.land v CHECKSUM_MASK = v mod 2 ^ 60 /\
    0 <= Z.land v CHECKSUM_MASK < 2 ^ 60.
Proof.
  repeat split; try reflexivity.
  - change CHECKSUM_MASK with (Z.ones 60). apply Z.land_ones. lia.
  - change CHECKSUM_MASK with (Z.ones 60). rewrite Z.land_ones by lia.
    apply Z.mod_pos_bound. lia.
  - change CHECKSUM_MASK with (Z.ones 60). rewrite Z.land_ones by lia.
    apply Z.mod_pos_bound. lia.
Qed.

(** ** Pagination *)

Example offset_limit_16 : offset_limit None (Some 16) = Ok "LIMIT 16".
Proof. reflexivity. Qed.

Example offset_limit_no_limit : offset_limit (Some 0) None = Ok "LIMIT None".
Proof. reflexivity. Qed.

Lemma truthy_opt_int_spec (x : option Z) :
  truthy_opt_int x = true <-> exists o, x = Some o /\ o <> 0.
Proof.
  destruct x as [o|]; simpl.
  - rewrite negb_true_iff, Z.eqb_neq. split.
    + intros H. exists o. auto.
    + intros [o' [E H]]. injection E as ->. exact H.
  - split; [discriminate | intros [o [E _]]; discriminate].
Qed.

(** C7 as stated fails: a negative offset is rejected too, although it is
    not greater than 0. *)
Lemma offset_limit_negative_offset_rejected :
  ~ (raises (offset_limit (Some (-1)) (Some 10)) NotImplementedError
     <-> exists o, Some (-1) = Some o /\ 0 < o).
Proof.
  intros [H _].
  destruct H as [o [E Hpos]].
  - exists "No support for OFFSET in query". reflexivity.
  - injection E as <-. lia.
Qed.

(** C7 (amended): [offset_limit] raises [NotImplementedError] if and only
    if an offset is given and is not zero; it returns the clause
    ["LIMIT {limit}"] if and only if the offset is absent or zero. *)
Theorem offset_limit_rejects_nonzero_offset (offset limit : option Z) :
  (raises (offset_limit offset limit) NotImplementedError
   <-> exists o, offset = Some o /\ o <> 0) /\
  (offset_limit offset limit = Ok ("LIMIT " ++ str_opt_int limit)
   <-> offset = None \/ offset = Some 0).
Proof.
  unfold offset_limit.
  pose proof (truthy_opt_int_spec offset) as Ht.
  destruct (truthy_opt_int offset) eqn:E.
  - split.
    + split; intros _; [apply Ht; reflexivity | eexists; reflexivity].
    + split; [discriminate |].
      destruct (proj1 Ht eq_refl) as [o [-> Ho]].
      intros [H | H]; [discriminate | injection H as ->; lia].
  - split.
    + split; [intros [msg H]; discriminate |].
      intros H. apply Ht in H. discriminate.
    + split; [intros _ | reflexivity].
      destruct offset as [o|]; [right | left; reflexivity].
      simpl in E. rewrite negb_false_iff, Z.eqb_eq in E. now subst.
Qed.

(** ** Table paths *)

(** C3 as stated fails: without a default schema (the base class has
    [default_schema = None]) a one-component path is returned as it is, not
    as a pair. *)
Lemma normalize_table_path_without_default_schema :
  _normalize_table_path db_without_schema ["t"] = Ok ["t"] /\
  ~ (exists schema,
       default_schema db_without_schema = Some schema /\
       _normalize_table_path db_without_schema ["t"] = Ok [schema; "t"]).
Proof.
  split; [reflexivity |].
  intros [schema [H _]]. discriminate.
Qed.

(** C3 (amended): a path of more than 2 components raises [ValueError]; a
    path of length 1 is returned as [(default_schema, table)] when the
    connection has a non-empty default schema and unchanged otherwise; a
    path of length 2 is returned unchanged. *)
Theorem normalize_table_path_spec (self : Database) (path : DbPath) :
  ((2 < List.length path)%nat -> raises (_normalize_table_path self path) ValueError) /\
  (forall table schema,
     path = [table] -> default_schema self = Some schema -> schema <> "" ->
     _normalize_table_path self path = Ok [schema; table]) /\
  (forall table,
     path = [table] -> default_schema self = None \/ default_schema self = Some "" ->
     _normalize_table_path self path = Ok [table]) /\
  ((List.length path = 2)%nat -> _normalize_table_path self path = Ok path).
Proof.
  repeat split.
  - intros Hlen.
    destruct path as [|a [|b [|c rest]]]; simpl in Hlen; try lia.
    eexists. reflexivity.
  - intros table schema -> Hs Hne. simpl. rewrite Hs.
    destruct schema; [congruence | reflexivity].
  - intros table -> [Hs | Hs]; simpl; rewrite Hs; reflexivity.
  - intros Hlen.
    destruct path as [|a [|b [|c rest]]]; simpl in Hlen; try lia.
    reflexivity.
Qed.

Lemma normalize_table_path_spec_witness :
  _normalize_table_path db_public ["t"] = Ok ["public"; "t"] /\
  _normalize_table_path db_without_schema ["t"] = Ok ["t"] /\
  _normalize_table_path db_public ["s"; "t"] = Ok ["s"; "t"] /\
  raises (_normalize_table_path db_public ["a"; "b"; "c"]) ValueError.
Proof.
  split; [| split; [| split]].
  - apply (proj1 (proj2 (normalize_table_path_spec db_public ["t"])) "t" "public");
      [reflexivity | reflexivity | discriminate].
  - apply (proj1 (proj2 (proj2 (normalize_table_path_spec db_without_schema ["t"]))) "t");
      [reflexivity | left; reflexivity].
  - apply (proj2 (proj2 (proj2 (normalize_table_path_spec db_public ["s"; "t"])))).
    reflexivity.
  - apply (proj1 (normalize_table_path_spec db_public ["a"; "b"; "c"])).
    simpl. lia.
Defined.

(** ** The key-space partitioner *)

Lemma round_div_near (t : tie_rule) (a b : Z) :
  0 < b -> - b <= 2 * (round_div t a b * b - a) <= b.
Proof.
  intros Hb. unfold round_div.
  pose proof (Z.div_mod a b ltac:(lia)) as Hdm.
  pose proof (Z.mod_pos_bound a b Hb) as Hr.
  destruct (2 * (a mod b) <? b) eqn:E1; [apply Z.ltb_lt in E1; nia |].
  apply Z.ltb_ge in E1.
  destruct (b <? 2 * (a mod b)) eqn:E2; [apply Z.ltb_lt in E2; nia |].
  apply Z.ltb_ge in E2.
  destruct t; [destruct (Z.even (a / b)) |]; nia.
Qed.

Lemma round_div_exact (t : tie_rule) (k b : Z) :
  0 < b -> round_div t (k * b) b = k.
Proof.
  intros Hb. unfold round_div.
  rewrite Z.div_mul, Z.mod_mul by lia.
  replace (2 * 0 <? b) with true by (symmetry; apply Z.ltb_lt; lia).
  reflexivity.
Qed.

(** Consecutive points differ when the step [d / b] is at least 1. *)
Lemma round_div_step (t : tie_rule) (k d b : Z) :
  0 < b -> b <= d -> round_div t (k * d) b < round_div t ((k + 1) * d) b.
Proof.
  intros Hb Hd.
  destruct (Z.eq_dec d b) as [-> | Hne].
  - rewrite !round_div_exact by lia. lia.
  - pose proof (round_div_near t (k * d) b Hb).
    pose proof (round_div_near t ((k + 1) * d) b Hb).
    nia.
Qed.

Lemma round_div_increasing (t : tie_rule) (d b : Z) (i j : nat) :
  0 < b -> b <= d -> (i < j)%nat ->
  round_div t ((Z.of_nat i + 1) * d) b < round_div t ((Z.of_nat j + 1) * d) b.
Proof.
  intros Hb Hd Hij. induction Hij as [| j Hij IH].
  - replace (Z.of_nat (S i) + 1) with ((Z.of_nat i + 1) + 1) by lia.
    now apply round_div_step.
  - eapply Z.lt_trans; [exact IH |].
    replace (Z.of_nat (S j) + 1) with ((Z.of_nat j + 1) + 1) by lia.
    now apply round_div_step.
Qed.

Lemma StronglySorted_map_seq (f : nat -> Z) (n a : nat) :
  (forall i j, (i < j)%nat -> f i < f j) ->
  StronglySorted Z.lt (map f (seq a n)).
Proof.
  intros Hf. revert a. induction n as [| n IH]; intros a; simpl.
  - constructor.
  - constructor; [apply IH |].
    apply Forall_forall. intros y Hy.
    apply in_map_iff in Hy. destruct Hy as [j [<- Hj]].
    apply in_seq in Hj. apply Hf. lia.
Qed.

Lemma no_interior_point (l : list Z) :
  ~ (List.length l = 1%nat /\ Forall (fun x => 0 < x < 1) l).
Proof.
  intros [Hlen Hall]. destruct l as [| x l]; [discriminate |].
  inversion Hall; subst. lia.
Qed.

(** C2 as stated fails: between 0 and 1 there is no integer, so the single
    point of [split_space(0, 1, 1)] cannot lie strictly between them,
    however [round] settles the tie; no list of one integer could. *)
Lemma split_space_unit_interval :
  split_space HalfEven 0 1 1 = [0] /\
  split_space HalfUp 0 1 1 = [1] /\
  ~ (0 < 1 /\ (1 <= 1)%nat ->
     List.length (split_space HalfEven 0 1 1) = 1%nat /\
     StronglySorted Z.lt (split_space HalfEven 0 1 1) /\
     Forall (fun x => 0 < x < 1) (split_space HalfEven 0 1 1)) /\
  (forall l : list Z, ~ (List.length l = 1%nat /\ Forall (fun x => 0 < x < 1) l)).
Proof.
  split; [reflexivity | split; [reflexivity | split]].
  - intros H. destruct H as [Hlen [_ Hall]]; [lia |].
    exact (no_interior_point _ (conj Hlen Hall)).
  - exact no_interior_point.
Qed.

(** C2 (amended): for [n >= 1] and [hi - lo >= n + 1] (so that the
    interval has room for [n] interior integers), [split_space(lo, hi, n)]
    returns exactly [n] integers, strictly increasing and all strictly
    between [lo] and [hi]. *)
Theorem split_space_interior_points (t : tie_rule) (lo hi : Z) (n : nat) :
  (1 <= n)%nat -> Z.of_nat n + 1 <= hi - lo ->
  List.length (split_space t lo hi n) = n /\
  StronglySorted Z.lt (split_space t lo hi n) /\
  Forall (fun x => lo < x < hi) (split_space t lo hi n).
Proof.
  intros Hn Hroom. unfold split_space. repeat split.
  - now rewrite length_map, length_seq.
  - apply StronglySorted_map_seq with
      (f := fun i => lo + round_div t ((Z.of_nat i + 1) * (hi - lo)) (Z.of_nat n + 1)).
    intros i j Hij.
    pose proof (round_div_increasing t (hi - lo) (Z.of_nat n + 1) i j
                  ltac:(lia) Hroom Hij).
    lia.
  - apply Forall_forall. intros x Hx.
    apply in_map_iff in Hx. destruct Hx as [i [<- Hi]].
    apply in_seq in Hi.
    pose proof (round_div_near t ((Z.of_nat i + 1) * (hi - lo)) (Z.of_nat n + 1)
                  ltac:(lia)) as Hnear.
    set (r := round_div t ((Z.of_nat i + 1) * (hi - lo)) (Z.of_nat n + 1)) in *.
    assert (0 < r < hi - lo) by nia.
    lia.
Qed.

Lemma split_space_interior_points_witness :
  List.length (split_space HalfEven 0 100 3) = 3%nat /\
  StronglySorted Z.lt (split_space HalfEven 0 100 3) /\
  Forall (fun x => 0 < x < 100) (split_space HalfEven 0 100 3).
Proof.
  apply (split_space_interior_points HalfEven 0 100 3); simpl; lia.
Defined.

Example split_space_0_100_3 : split_space HalfEven 0 100 3 = [25; 50; 75].
Proof. reflexivity. Qed.

(** ** Binary precision to decimal digits *)

Lemma ln_IZR_pow (z : Z) (n : nat) :
  0 < z -> ln (IZR (z ^ Z.of_nat n)) = (INR n * ln (IZR z))%R.
Proof.
  intros Hz. rewrite <- pow_IZR. apply ln_pow. now apply (IZR_lt 0).
Qed.

Lemma ln_IZR_le (x y : Z) :
  0 < x -> x <= y -> (ln (IZR x) <= ln (IZR y))%R.
Proof.
  intros Hx Hxy.
  destruct (Z.eq_dec x y) as [-> | Hne]; [apply Rle_refl |].
  apply Rlt_le, ln_increasing; [now apply (IZR_lt 0) | apply IZR_lt; lia].
Qed.

Lemma ln_10_pos : (0 < ln 10)%R.
Proof.
  rewrite <- ln_1. apply ln_increasing; lra.
Qed.

(** [59/196 <= log10(2) <= 146/485], from [10^59 <= 2^196] and
    [2^485 <= 10^146]. *)
Lemma log10_2_bounds :
  (59 * ln 10 <= 196 * ln 2)%R /\ (485 * ln 2 <= 146 * ln 10)%R.
Proof.
  split.
  - pose proof (ln_IZR_le (10 ^ Z.of_nat 59) (2 ^ Z.of_nat 196)
                  ltac:(vm_compute; reflexivity)
                  ltac:(vm_compute; discriminate)) as H.
    rewrite !ln_IZR_pow in H by lia.
    replace (INR 59) with 59%R in H by (simpl; lra).
    replace (INR 196) with (IZR (Z.of_nat 196)) in H by (symmetry; apply INR_IZR_INZ).
    simpl Z.of_nat in H. exact H.
  - pose proof (ln_IZR_le (2 ^ Z.of_nat 485) (10 ^ Z.of_nat 146)
                  ltac:(vm_compute; reflexivity)
                  ltac:(vm_compute; discriminate)) as H.
    rewrite !ln_IZR_pow in H by lia.
    replace (INR 485) with (IZR (Z.of_nat 485)) in H by (symmetry; apply INR_IZR_INZ).
    replace (INR 146) with (IZR (Z.of_nat 146)) in H by (symmetry; apply INR_IZR_INZ).
    simpl Z.of_nat in H. exact H.
Qed.

Lemma ln_pow2 (p : Z) : 0 <= p -> ln (IZR (2 ^ p)) = (IZR p * ln 2)%R.
Proof.
  intros Hp. rewrite <- (Z2Nat.id p Hp) at 1.
  rewrite ln_IZR_pow by lia.
  now rewrite INR_IZR_INZ, Z2Nat.id.
Qed.

Lemma log10_margin_all : forallb log10_margin_ok (map Z.of_nat (seq 1 128)) = true.
Proof. vm_compute. reflexivity. Qed.

Lemma log10_margin_in_range (p : Z) :
  1 <= p <= 128 -> log10_margin_ok p = true.
Proof.
  intros Hp.
  pose proof log10_margin_all as H.
  rewrite forallb_forall in H. apply H.
  apply in_map_iff. exists (Z.to_nat p). split; [lia |].
  apply in_seq. lia.
Qed.

(** The exact logarithm stays more than [1/256] inside the unit interval
    that starts at [floor_log10 (2^p)]. *)
Lemma log10_pow2_margin (p : Z) :
  1 <= p <= 128 ->
  (IZR (floor_log10 (2 ^ p)) + 1 / 256 <= ln (IZR (2 ^ p)) / ln 10
   < IZR (floor_log10 (2 ^ p)) + 1 - 1 / 256)%R.
Proof.
  intros Hp.
  pose proof (log10_margin_in_range p Hp) as Hm.
  unfold log10_margin_ok in Hm.
  set (d := floor_log10 (2 ^ p)) in *. cbv zeta in Hm.
  apply andb_true_iff in Hm. destruct Hm as [Hlo Hhi].
  apply Z.leb_le in Hlo. apply Z.ltb_lt in Hhi.
  apply IZR_le in Hlo. apply IZR_lt in Hhi.
  rewrite ?mult_IZR, ?plus_IZR, ?mult_IZR in Hlo, Hhi.
  rewrite ln_pow2 by lia.
  destruct log10_2_bounds as [B1 B2].
  pose proof ln_10_pos as H10.
  assert (Hp' : (1 <= IZR p)%R) by (apply IZR_le; lia).
  split.
  - apply (Rmult_le_reg_r (ln 10)); [exact H10 |].
    unfold Rdiv at 2. rewrite Rmult_assoc, Rinv_l, Rmult_1_r by lra.
    nra.
  - apply (Rmult_lt_reg_r (ln 10)); [exact H10 |].
    unfold Rdiv at 1. rewrite Rmult_assoc, Rinv_l, Rmult_1_r by lra.
    nra.
Qed.

Lemma Rabs_le_bounds (a b : R) : (Rabs a <= b)%R -> (- b <= a <= b)%R.
Proof.
  unfold Rabs. destruct (Rcase_abs a); lra.
Qed.

Lemma Zfloor_log10_pow2 (p : Z) :
  1 <= p <= 128 -> Zfloor (ln (IZR (2 ^ p)) / ln 10) = floor_log10 (2 ^ p).
Proof.
  intros Hp. pose proof (log10_pow2_margin p Hp) as [Hlo Hhi].
  apply Zfloor_eq; lra.
Qed.

Lemma convert_digits_floor_log10 (math_log : Z -> Z -> R) (p : Z) :
  1 <= p <= 128 ->
  (Rabs (math_log (2 ^ p)%Z 10%Z - ln (IZR (2 ^ p)) / ln 10) <= 1 / 256)%R ->
  _convert_db_precision_to_digits math_log p = floor_log10 (2 ^ p).
Proof.
  intros Hp Hnear.
  pose proof (log10_pow2_margin p Hp) as [Hlo Hhi].
  apply Rabs_le_bounds in Hnear.
  apply Zfloor_eq; lra.
Qed.

(** C5: for a binary precision [p] in [1..128],
    [_convert_db_precision_to_digits(p)] equals [floor(log10(2^p))] over
    exact arithmetic, as soon as the float that [math.log(2**p, 10)] returns
    is within [1/256] of the exact logarithm. *)
Theorem convert_db_precision_to_digits_exact (math_log : Z -> Z -> R) (p : Z) :
  1 <= p <= 128 ->
  (Rabs (math_log (2 ^ p)%Z 10%Z - ln (IZR (2 ^ p)) / ln 10) <= 1 / 256)%R ->
  _convert_db_precision_to_digits math_log p = Zfloor (ln (IZR (2 ^ p)) / ln 10) /\
  _convert_db_precision_to_digits math_log p = floor_log10 (2 ^ p).
Proof.
  intros Hp Hnear.
  rewrite Zfloor_log10_pow2 by exact Hp.
  split; now apply convert_digits_floor_log10.
Qed.

Lemma convert_db_precision_to_digits_exact_witness :
  _convert_db_precision_to_digits exact_log 24 = Zfloor (ln (IZR (2 ^ 24)) / ln 10) /\
  _convert_db_precision_to_digits exact_log 24 = floor_log10 (2 ^ 24).
Proof.
  apply (convert_db_precision_to_digits_exact exact_log 24).
  - lia.
  - unfold exact_log. rewrite Rminus_diag, Rabs_R0. lra.
Defined.

Example float_24_bits_is_7_digits :
  _convert_db_precision_to_digits exact_log DEFAULT_NUMERIC_PRECISION = 7.
Proof.
  apply (convert_digits_floor_log10 exact_log 24); [lia |].
  unfold exact_log. rewrite Rminus_diag, Rabs_R0. lra.
Qed.

(** ** Typed query results *)

Section QueryInt.

Variable compile : Database -> Sql -> string.
Variable int_of_text : string -> result Z.

Lemma query_int_scalar (self : Database) (answer : string) (sql_ast : Sql)
    (v : Scalar) :
  confirm_interactive compile self answer sql_ast = Ok tt ->
  _query self (compile self sql_ast) = Ok (Some [[v]]) ->
  query compile int_of_text self answer sql_ast RT_int =
    match v with
    | SqlNull => Ok QNone
    | _ => i <- py_int int_of_text v ;; Ok (QInt i)
    end.
Proof.
  intros Hgate Hres. unfold query. rewrite Hgate. simpl.
  rewrite Hres. reflexivity.
Qed.

(** C6: a query executed with result type [int] whose answer is a
    single scalar returns [None] exactly when the scalar is SQL [NULL], and
    otherwise the scalar converted to an integer; so a checksum, the [int]
    query of [SUM] over the rows of a segment, is [None] exactly for an
    empty segment. *)
Theorem query_int_none_iff_null (self : Database) (answer : string)
    (sql_ast : Sql) :
  confirm_interactive compile self answer sql_ast = Ok tt ->
  (forall v,
     _query self (compile self sql_ast) = Ok (Some [[v]]) ->
     (query compile int_of_text self answer sql_ast RT_int = Ok QNone
      <-> v = SqlNull) /\
     (v <> SqlNull ->
      query compile int_of_text self answer sql_ast RT_int =
        (i <- py_int int_of_text v ;; Ok (QInt i)))) /\
  (forall terms,
     _query self (compile self sql_ast) = checksum_answer terms ->
     (query compile int_of_text self answer sql_ast RT_int = Ok QNone
      <-> terms = []) /\
     (terms <> [] ->
      query compile int_of_text self answer sql_ast RT_int =
        Ok (QInt (fold_right Z.add 0 terms)))).
Proof.
  intros Hgate. split.
  - intros v Hres. rewrite (query_int_scalar self answer sql_ast v Hgate Hres).
    split.
    + split; [| intros ->; reflexivity].
      destruct v; simpl; try discriminate; [reflexivity |].
      destruct (int_of_text s); discriminate.
    + intros Hv. destruct v; congruence.
  - intros terms Hres. unfold checksum_answer in Hres.
    rewrite (query_int_scalar self answer sql_ast _ Hgate Hres).
    destruct terms as [| t terms]; simpl.
    + split; [split; reflexivity | congruence].
    + split; [split; discriminate | reflexivity].
Qed.

End QueryInt.

Lemma query_int_none_iff_null_witness :
  query compile_text int_of_text_never db_null_sum "" (SqlCode "SELECT sum(x) FROM t") RT_int
  = Ok QNone.
Proof.
  apply (proj1 (query_int_none_iff_null compile_text int_of_text_never
                  db_null_sum "" (SqlCode "SELECT sum(x) FROM t") eq_refl)
           SqlNull eq_refl).
  reflexivity.
Defined.

Example query_int_decimal :
  query compile_text int_of_text_never
    (mk_Database "MySQL" "<MySQL>" None (fun _ => None) false false
       (fun _ => Ok (Some [[SqlDecimal 1234567 0]])))
    "" (SqlCode "SELECT sum(x) FROM t") RT_int
  = Ok (QInt 1234567).
Proof. reflexivity. Qed.

Example query_int_two_rows :
  raises
    (query compile_text int_of_text_never
       (mk_Database "MySQL" "<MySQL>" None (fun _ => None) false false
          (fun _ => Ok (Some [[SqlInt 1]; [SqlInt 2]])))
       "" (SqlCode "SELECT x FROM t") RT_int)
    ValueError.
Proof. eexists. reflexivity. Qed.

(** ** Schema parsing *)

(** C10: when the type representation parses to the [Decimal] class and
    [numeric_scale] is [None], [_parse_type] raises [ValueError]; it builds
    no column type with a default scale. *)
Theorem parse_type_decimal_without_scale (math_log : Z -> Z -> R)
    (math_log_neg : Z -> result R)
    (self : Database) (table_path : DbPath) (col_name type_repr : string)
    (datetime_precision numeric_precision : option Z) :
  _parse_type_repr self type_repr = Some DecimalClass ->
  _parse_type math_log math_log_neg self table_path col_name type_repr
    datetime_precision numeric_precision None
  = Raise (mk_exn ValueError
      (name self ++ ": Unexpected numeric_scale is NULL, for column "
       ++ join "." table_path ++ "." ++ col_name
       ++ " of type " ++ type_repr ++ ".")).
Proof.
  intros Hcls. unfold _parse_type. rewrite Hcls. reflexivity.
Qed.

Lemma parse_type_decimal_without_scale_witness :
  _parse_type exact_log exact_log_neg db_typed ["public"; "t"] "price" "decimal"
    None (Some 10) None
  = Raise (mk_exn ValueError
      "PostgreSQL: Unexpected numeric_scale is NULL, for column public.t.price of type decimal.").
Proof.
  apply (parse_type_decimal_without_scale exact_log exact_log_neg db_typed ["public"; "t"]
           "price" "decimal" None (Some 10)).
  reflexivity.
Defined.

Example parse_type_decimal_with_scale :
  _parse_type exact_log exact_log_neg db_typed ["public"; "t"] "price" "decimal"
    None (Some 10) (Some 2)
  = Ok (Decimal 2).
Proof. reflexivity. Qed.

(** C9: when the path normalises to [(schema, table)] and the schema
    query returns no rows, [query_table_schema] raises [RuntimeError], a
    kind that is not among the error kinds the spec declares, and neither
    [QueryError] nor [ValueError]. *)
Theorem query_table_schema_no_rows (math_log : Z -> Z -> R)
    (math_log_neg : Z -> result R)
    (compile : Database -> Sql -> string) (int_of_text : string -> result Z)
    (is_uuid : Scalar -> result bool) (str_lower : string -> string)
    (self : Database) (answer : string)
    (path : DbPath) (filter_columns : option (list string)) (sql : string) :
  select_table_schema self path = Ok sql ->
  _query self (compile self (SqlCode sql)) = Ok (Some []) ->
  query_table_schema math_log math_log_neg compile int_of_text is_uuid str_lower
    self answer path filter_columns
  = Raise (mk_exn RuntimeError
      (name self ++ ": Table '" ++ join "." path
       ++ "' does not exist, or has no columns")) /\
  ~ In RuntimeError spec_error_kinds /\
  RuntimeError <> QueryError /\ RuntimeError <> ValueError.
Proof.
  intros Hsql Hres. split.
  - unfold query_table_schema. rewrite Hsql. simpl.
    unfold query, confirm_interactive. simpl.
    rewrite andb_false_r. simpl. rewrite Hres. reflexivity.
  - split; [| split; discriminate].
    simpl. intros H. repeat (destruct H as [H | H]; [discriminate |]). exact H.
Qed.

Lemma query_table_schema_no_rows_witness :
  query_table_schema exact_log exact_log_neg compile_text int_of_text_never
    is_uuid_text lower db_public "" ["missing"] None
  = Raise (mk_exn RuntimeError
      "PostgreSQL: Table 'missing' does not exist, or has no columns").
Proof.
  apply (query_table_schema_no_rows exact_log exact_log_neg compile_text
           int_of_text_never is_uuid_text lower db_public "" ["missing"] None
           "SELECT column_name, data_type, datetime_precision, numeric_precision, numeric_scale FROM information_schema.columns WHERE table_name = 'missing' AND table_schema = 'public'").
  - reflexivity.
  - reflexivity.
Defined.

(** ** Dictionaries and sequences *)

Section DictFacts.

Context {V : Type}.

Lemma dict_get_set_same (k : string) (v : V) (d : Dict V) :
  dict_get k (dict_set k v d) = Some v.
Proof.
  induction d as [| [k' v'] d IH]; simpl.
  - now rewrite String.eqb_refl.
  - destruct (String.eqb k k') eqn:E; simpl; rewrite E; [reflexivity | exact IH].
Qed.

Lemma dict_get_set_other (k k0 : string) (v : V) (d : Dict V) :
  k <> k0 -> dict_get k (dict_set k0 v d) = dict_get k d.
Proof.
  intros Hne. induction d as [| [k' v'] d IH]; simpl.
  - apply String.eqb_neq in Hne. now rewrite Hne.
  - destruct (String.eqb k0 k') eqn:E; simpl.
    + apply String.eqb_eq in E. subst k'.
      apply String.eqb_neq in Hne. now rewrite Hne.
    + now rewrite IH.
Qed.

Lemma dict_get_In (k : string) (v : V) (d : Dict V) :
  dict_get k d = Some v -> In (k, v) d.
Proof.
  induction d as [| [k' v'] d IH]; simpl; [discriminate |].
  destruct (String.eqb k k') eqn:E.
  - apply String.eqb_eq in E. intros H. injection H as ->. subst. now left.
  - intros H. right. now apply IH.
Qed.

Lemma dict_get_None (k : string) (d : Dict V) :
  ~ In k (map fst d) -> dict_get k d = None.
Proof.
  induction d as [| [k' v'] d IH]; simpl; [reflexivity |].
  intros Hn. destruct (String.eqb k k') eqn:E.
  - apply String.eqb_eq in E. subst. tauto.
  - apply IH. tauto.
Qed.

Lemma dict_mem_set (k k0 : string) (v : V) (d : Dict V) :
  dict_mem k d = true -> dict_mem k (dict_set k0 v d) = true.
Proof.
  unfold dict_mem. destruct (String.eqb k k0) eqn:E.
  - apply String.eqb_eq in E. subst. now rewrite dict_get_set_same.
  - apply String.eqb_neq in E. now rewrite dict_get_set_other.
Qed.

Lemma NoDup_keys_filter (f : string * V -> bool) (d : Dict V) :
  NoDup (map fst d) -> NoDup (map fst (filter f d)).
Proof.
  induction d as [| kv d IH]; simpl; intros Hnd; [constructor |].
  inversion Hnd as [| ? ? Hnotin Hnd']; subst.
  destruct (f kv); simpl; [constructor |]; auto.
  intros Hin. apply Hnotin.
  apply in_map_iff in Hin. destruct Hin as [x [Hx Hin]].
  apply filter_In in Hin. apply in_map_iff. exists x. tauto.
Qed.

End DictFacts.

Lemma filter_nil_existsb {A : Type} (f : A -> bool) (l : list A) :
  filter f l = [] <-> existsb f l = false.
Proof.
  induction l as [| x l IH]; simpl; [tauto |].
  destruct (f x); simpl; [split; discriminate | exact IH].
Qed.

Lemma filter_length_le {A : Type} (f : A -> bool) (l : list A) :
  (List.length (filter f l) <= List.length l)%nat.
Proof.
  induction l as [| x l IH]; simpl; [lia |].
  destruct (f x); simpl; lia.
Qed.

Lemma filter_length_forallb {A : Type} (f : A -> bool) (l : list A) :
  Nat.eqb (List.length (filter f l)) (List.length l) = forallb f l.
Proof.
  induction l as [| x l IH]; simpl; [reflexivity |].
  destruct (f x); simpl; [exact IH |].
  apply Nat.eqb_neq. pose proof (filter_length_le f l). lia.
Qed.

Lemma zip_cons_shape {A : Type} (n : nat) (r : list A) (cols : list (list A)) :
  List.length r = List.length cols ->
  Forall (fun c => List.length c = n) cols ->
  List.length (zip_cons r cols) = List.length r /\
  Forall (fun c => List.length c = S n) (zip_cons r cols).
Proof.
  revert cols. induction r as [| x r IH]; intros [| c cols] Hlen Hall;
    simpl in *; try discriminate; [split; [reflexivity | constructor] |].
  inversion Hall as [| ? ? Hc Hcols]; subst.
  destruct (IH cols ltac:(lia) Hcols) as [H1 H2].
  split; [now rewrite H1 | constructor; [reflexivity | exact H2]].
Qed.

(** The columns of a non-empty rectangular answer: as many as the width,
    each as long as the number of rows. *)
Lemma zip_star_shape {A : Type} (w : nat) (rows : list (list A)) :
  rows <> [] ->
  Forall (fun r => List.length r = w) rows ->
  List.length (zip_star rows) = w /\
  Forall (fun c => List.length c = List.length rows) (zip_star rows).
Proof.
  induction rows as [| r rest IH]; [congruence |].
  intros _ Hall. inversion Hall as [| ? ? Hr Hrest]; subst.
  destruct rest as [| r' rest'].
  - simpl. rewrite length_map. split; [reflexivity |].
    apply Forall_forall. intros c Hc. apply in_map_iff in Hc.
    destruct Hc as [x [<- _]]. reflexivity.
  - destruct (IH ltac:(discriminate) Hrest) as [H1 H2].
    change (zip_star (r :: r' :: rest')) with (zip_cons r (zip_star (r' :: rest'))).
    destruct (zip_cons_shape (List.length (r' :: rest')) r (zip_star (r' :: rest'))
                ltac:(lia) H2) as [H3 H4].
    split; [exact H3 | exact H4].
Qed.

Lemma zip_star_column_length {A : Type} (rows : list (list A)) (c : list A) :
  In c (zip_star rows) -> (List.length c <= List.length rows)%nat.
Proof.
  revert c. induction rows as [| r rest IH]; intros c Hc; [destruct Hc |].
  destruct rest as [| r' rest'].
  - simpl in Hc. apply in_map_iff in Hc. destruct Hc as [x [<- _]]. simpl. lia.
  - change (zip_star (r :: r' :: rest')) with (zip_cons r (zip_star (r' :: rest'))) in Hc.
    assert (Hgen : forall (r0 : list A) cols n,
               (forall c', In c' cols -> (List.length c' <= n)%nat) ->
               forall c', In c' (zip_cons r0 cols) -> (List.length c' <= S n)%nat).
    { induction r0 as [| x r0 IHr]; intros [| c0 cols] n Hb c' Hin;
        simpl in Hin; try contradiction.
      destruct Hin as [<- | Hin].
      - simpl. specialize (Hb c0 (or_introl eq_refl)). lia.
      - eapply IHr; [| exact Hin]. intros c'' Hc''. apply Hb. now right. }
    exact (Hgen r (zip_star (r' :: rest')) _ IH c Hc).
Qed.

Lemma dict_mem_keys {V : Type} (k : string) (d : Dict V) :
  In k (map fst d) -> dict_mem k d = true.
Proof.
  unfold dict_mem. induction d as [| [k' v'] d IH]; simpl; [tauto |].
  intros [-> | Hin]; [now rewrite String.eqb_refl |].
  destruct (String.eqb k k'); [reflexivity | now apply IH].
Qed.

Lemma NoDup_keys_functional {V : Type} (d : Dict V) (k : string) (v v' : V) :
  NoDup (map fst d) -> In (k, v) d -> In (k, v') d -> v = v'.
Proof.
  induction d as [| [k0 v0] d IH]; simpl; [tauto |].
  intros Hnd H1 H2. inversion Hnd as [| ? ? Hnotin Hnd']; subst.
  assert (Hkey : forall w, In (k, w) d -> In k (map fst d))
    by (intros w Hw; apply in_map_iff; exists (k, w); auto).
  destruct H1 as [E1 | H1], H2 as [E2 | H2].
  - congruence.
  - injection E1 as -> ->. exfalso. eauto.
  - injection E2 as -> ->. exfalso. eauto.
  - eauto.
Qed.

Lemma map_fst_combine {A B : Type} (xs : list A) (ys : list B) :
  List.length xs = List.length ys -> map fst (combine xs ys) = xs.
Proof.
  revert ys. induction xs as [| x xs IH]; intros [| y ys] Hlen;
    simpl in *; try discriminate; [reflexivity |].
  f_equal. apply IH. lia.
Qed.

(** ** Refining text columns *)

Lemma zip_cons_values {A : Type} (r : list A) (cols : list (list A))
    (c : list A) (v : A) :
  In c (zip_cons r cols) -> In v c ->
  In v r \/ exists c', In c' cols /\ In v c'.
Proof.
  revert cols. induction r as [| x r IH]; intros [| c0 cols] Hc Hv;
    simpl in Hc; try contradiction.
  destruct Hc as [<- | Hc].
  - destruct Hv as [<- | Hv]; [left; now left | right; exists c0; split; [now left | exact Hv]].
  - destruct (IH cols Hc Hv) as [H | [c' [Hc' H]]].
    + left. now right.
    + right. exists c'. split; [now right | exact H].
Qed.

(** Every value of a column of the answer is a value of one of its rows. *)
Lemma zip_star_values {A : Type} (rows : list (list A)) (c : list A) (v : A) :
  In c (zip_star rows) -> In v c -> exists r, In r rows /\ In v r.
Proof.
  revert c. induction rows as [| r rest IH]; intros c Hc Hv; [destruct Hc |].
  destruct rest as [| r' rest'].
  - simpl in Hc. apply in_map_iff in Hc. destruct Hc as [x [<- Hx]].
    destruct Hv as [<- | []]. exists r. split; [now left | exact Hx].
  - change (zip_star (r :: r' :: rest')) with (zip_cons r (zip_star (r' :: rest'))) in Hc.
    destruct (zip_cons_values r _ c v Hc Hv) as [H | [c' [Hc' H]]].
    + exists r. split; [now left | exact H].
    + destruct (IH c' Hc' H) as [r0 [Hr0 Hv0]].
      exists r0. split; [now right | exact Hv0].
Qed.

Section Refine.

Variable compile : Database -> Sql -> string.
Variable int_of_text : string -> result Z.
Variable is_uuid : Scalar -> result bool.

Lemma filter_result_returns (s : list Scalar) :
  Forall (returns is_uuid) s ->
  filter_result is_uuid s = Ok (filter (is_uuid_true is_uuid) s).
Proof.
  induction 1 as [| v s [b Hb] _ IH]; simpl; [reflexivity |].
  unfold is_uuid_true at 1. rewrite Hb, IH. reflexivity.
Qed.

Lemma refine_column_spec (path : DbPath) (st : RefineState)
    (k : string) (s : list Scalar) :
  Forall (returns is_uuid) s ->
  dict_mem k (col_dict st) = true ->
  refine_column is_uuid path st k s =
    (mk_RefineState
       (if uuid_sample is_uuid s
        then dict_set k ColType_UUID (col_dict st) else col_dict st)
       (if mixed_sample is_uuid s
        then (warnings st ++ [mixed_warning path k])%list else warnings st),
     Ok tt).
Proof.
  intros Hret Hmem. unfold refine_column, uuid_sample, mixed_sample.
  rewrite (filter_result_returns s Hret).
  rewrite <- (filter_length_forallb (is_uuid_true is_uuid) s).
  destruct (filter (is_uuid_true is_uuid) s) as [| u us] eqn:F.
  - apply filter_nil_existsb in F. rewrite F. simpl. now destruct st.
  - assert (E : existsb (is_uuid_true is_uuid) s = true).
    { destruct (existsb (is_uuid_true is_uuid) s) eqn:E; [reflexivity |].
      apply filter_nil_existsb in E. congruence. }
    rewrite E, Hmem. cbv zeta. cbn [andb].
    now destruct (Nat.eqb (List.length (u :: us)) (List.length s)).
Qed.

(** The loop reclassifies exactly the columns whose sample is all UUIDs,
    and warns about exactly the mixed ones, as long as [is_uuid] returns. *)
Lemma refine_loop_spec (path : DbPath) (pairs : list (string * list Scalar)) :
  forall st,
    NoDup (map fst pairs) ->
    Forall (fun kv => Forall (returns is_uuid) (snd kv)) pairs ->
    (forall k, In k (map fst pairs) -> dict_mem k (col_dict st) = true) ->
    exists st',
      refine_loop is_uuid path st pairs = (st', Ok tt) /\
      (forall k,
         dict_get k (col_dict st') =
           match dict_get k pairs with
           | Some s => if uuid_sample is_uuid s then Some ColType_UUID
                       else dict_get k (col_dict st)
           | None => dict_get k (col_dict st)
           end) /\
      warnings st' =
        (warnings st ++
         map (mixed_warning path)
           (map fst (filter (fun kv => mixed_sample is_uuid (snd kv)) pairs)))%list.
Proof.
  induction pairs as [| [k0 s0] pairs IH]; intros st Hnd Hret Hmem.
  - exists st. simpl. rewrite app_nil_r. auto.
  - simpl in Hnd. inversion Hnd as [| ? ? Hnotin Hnd']; subst.
    inversion Hret as [| ? ? Hret0 Hret']; subst. simpl in Hret0.
    simpl. rewrite refine_column_spec by (auto; apply Hmem; now left).
    set (st1 := mk_RefineState _ _).
    destruct (IH st1 Hnd' Hret') as [st' [Hrun [Hget Hwarn]]].
    { intros k Hk. subst st1. simpl.
      destruct (uuid_sample is_uuid s0);
        [apply dict_mem_set |]; apply Hmem; now right. }
    exists st'. split; [exact Hrun |]. split.
    + intros k. rewrite Hget. subst st1. simpl col_dict.
      destruct (String.eqb k k0) eqn:E.
      * apply String.eqb_eq in E. subst k0.
        rewrite (dict_get_None k pairs Hnotin).
        destruct (uuid_sample is_uuid s0);
          [apply dict_get_set_same | reflexivity].
      * apply String.eqb_neq in E.
        destruct (uuid_sample is_uuid s0);
          [rewrite dict_get_set_other by exact E |]; reflexivity.
    + rewrite Hwarn. subst st1. simpl warnings. simpl snd.
      destruct (mixed_sample is_uuid s0); simpl;
        [rewrite <- app_assoc |]; reflexivity.
Qed.

Lemma sampled_rows_query (self : Database) (answer : string)
    (path : DbPath) (d : Dict ColType) (rows : list Row) :
  query compile int_of_text self answer
    (sample_select path (text_columns_of d)) RT_other = Ok (QRaw (Some rows)) ->
  _query self (compile self (sample_select path (text_columns_of d)))
    = Ok (Some rows).
Proof.
  unfold query.
  destruct (confirm_interactive compile self answer _); simpl; [| discriminate].
  destruct (_query self _) as [res |]; simpl; [| discriminate].
  intros H. now injection H as ->.
Qed.

(** The sampled rows are rectangular and at most 16. *)
Lemma sampled_rows_shape (self : Database) (answer : string)
    (path : DbPath) (d : Dict ColType) :
  honours_select compile self (sample_select path (text_columns_of d)) ->
  Forall (fun r : Row => List.length r = List.length (text_columns_of d))
    (sampled_rows compile int_of_text self answer path d) /\
  (List.length (sampled_rows compile int_of_text self answer path d) <= 16)%nat.
Proof.
  intros Hsel. unfold sampled_rows.
  destruct (query compile int_of_text self answer _ RT_other)
    as [[| | | | | [rows |]] |] eqn:Q;
    try (split; [constructor | simpl; lia]).
  apply sampled_rows_query in Q.
  destruct (Hsel rows Q) as [Hrect Hlim].
  rewrite length_map in Hrect. split; [exact Hrect |].
  specialize (Hlim 16 eq_refl). lia.
Qed.

(** What [_refine_coltypes] leaves behind, in terms of the sampled rows,
    when [is_uuid] returns on every sampled value. *)
Lemma refine_coltypes_state (self : Database) (answer : string)
    (path : DbPath) (d : Dict ColType) :
  NoDup (map fst d) ->
  honours_select compile self (sample_select path (text_columns_of d)) ->
  (forall r v, In r (sampled_rows compile int_of_text self answer path d) ->
               In v r -> returns is_uuid v) ->
  let pairs := combine (text_columns_of d)
                 (zip_star (sampled_rows compile int_of_text self answer path d)) in
  let st := fst (_refine_coltypes compile int_of_text is_uuid self answer path d) in
  (forall k,
     dict_get k (col_dict st) =
       match dict_get k pairs with
       | Some s => if uuid_sample is_uuid s then Some ColType_UUID
                   else dict_get k d
       | None => dict_get k d
       end) /\
  warnings st =
    map (mixed_warning path)
      (map fst (filter (fun kv => mixed_sample is_uuid (snd kv)) pairs)).
Proof.
  intros Hnd Hsel Hret pairs st.
  pose proof (sampled_rows_shape self answer path d Hsel) as [Hrect _].
  assert (Hcols : NoDup (text_columns_of d))
    by (apply NoDup_keys_filter; exact Hnd).
  assert (Hmem : forall k, In k (text_columns_of d) -> dict_mem k d = true).
  { intros k Hk. apply dict_mem_keys. unfold text_columns_of in Hk.
    apply in_map_iff in Hk. destruct Hk as [kv [<- Hkv]].
    apply filter_In in Hkv. apply in_map. tauto. }
  subst pairs st. unfold _refine_coltypes, sampled_rows in *.
  destruct (text_columns_of d) as [| c cols] eqn:Ecols.
  { simpl. split; [intros k |]; reflexivity. }
  rewrite <- Ecols in *.
  destruct (query compile int_of_text self answer _ RT_other)
    as [[| | | | | [rows |]] |] eqn:Q; simpl bind;
    try (rewrite Ecols; simpl; split; [intros k |]; reflexivity).
  destruct rows as [| r rows].
  { rewrite Ecols. simpl. split; [intros k |]; reflexivity. }
  destruct (zip_star_shape (List.length (text_columns_of d)) (r :: rows)
              ltac:(discriminate) Hrect) as [Hlen _].
  unfold safezip. rewrite Hlen, Nat.eqb_refl.
  destruct (refine_loop_spec path
              (combine (text_columns_of d) (zip_star (r :: rows)))
              (mk_RefineState d []))
    as [st' [Hrun [Hget Hwarn]]].
  - rewrite map_fst_combine by (symmetry; exact Hlen). exact Hcols.
  - apply Forall_forall. intros [k s] Hin. simpl.
    apply in_combine_r in Hin.
    apply Forall_forall. intros v Hv.
    destruct (zip_star_values (r :: rows) s v Hin Hv) as [r0 [Hr0 Hv0]].
    exact (Hret r0 v Hr0 Hv0).
  - intros k Hk. rewrite map_fst_combine in Hk by (symmetry; exact Hlen).
    simpl. now apply Hmem.
  - rewrite Hrun. simpl fst. split; [exact Hget | exact Hwarn].
Qed.

Lemma is_uuid_true_iff (v : Scalar) :
  is_uuid_true is_uuid v = true <-> is_uuid v = Ok true.
Proof.
  unfold is_uuid_true. destruct (is_uuid v) as [[|] |]; split; congruence.
Qed.

End Refine.

Lemma uuid_detection_of_samples
    (compile : Database -> Sql -> string) (int_of_text : string -> result Z)
    (is_uuid : Scalar -> result bool) (self : Database) (answer : string)
    (path : DbPath) (d : Dict ColType) :
  NoDup (map fst d) ->
  honours_select compile self (sample_select path (text_columns_of d)) ->
  (forall r v, In r (sampled_rows compile int_of_text self answer path d) ->
               In v r -> exists b, is_uuid v = Ok b) ->
  let samples :=
    column_samples (text_columns_of d)
      (sampled_rows compile int_of_text self answer path d) in
  let st := fst (_refine_coltypes compile int_of_text is_uuid self answer path d) in
  (forall k, (List.length (samples k) <= 16)%nat) /\
  (forall k,
     dict_get k d = Some Text ->
     (dict_get k (col_dict st) = Some ColType_UUID <->
      (exists v, In v (samples k) /\ is_uuid v = Ok true) /\
      (forall v, In v (samples k) -> is_uuid v = Ok true)) /\
     ((exists v, In v (samples k) /\ is_uuid v = Ok true) ->
      (exists v, In v (samples k) /\ is_uuid v = Ok false) ->
      dict_get k (col_dict st) = Some Text /\
      In (mixed_warning path k) (warnings st)) /\
     (dict_get k (col_dict st) = Some ColType_UUID \/
      dict_get k (col_dict st) = Some Text)) /\
  (forall k v,
     dict_get k d = Some v -> v <> Text -> dict_get k (col_dict st) = Some v).
Proof.
  intros Hnd Hsel Hret samples st.
  destruct (refine_coltypes_state compile int_of_text is_uuid self answer path d
              Hnd Hsel Hret) as [Hget Hwarn].
  fold st in Hget, Hwarn.
  pose proof (sampled_rows_shape compile int_of_text self answer path d Hsel)
    as [_ Hlim].
  set (rows := sampled_rows compile int_of_text self answer path d) in *.
  set (pairs := combine (text_columns_of d) (zip_star rows)) in *.
  assert (Hsamples : forall k, samples k =
            match dict_get k pairs with Some s => s | None => [] end)
    by reflexivity.
  assert (Hex : forall s,
            existsb (is_uuid_true is_uuid) s = true <->
            exists v, In v s /\ is_uuid v = Ok true).
  { intros s. rewrite existsb_exists.
    split; intros [v [Hin Hv]]; exists v; split; auto;
      now apply is_uuid_true_iff. }
  assert (Hall : forall s,
            forallb (is_uuid_true is_uuid) s = true <->
            forall v, In v s -> is_uuid v = Ok true).
  { intros s. rewrite forallb_forall.
    split; intros H v Hin; apply is_uuid_true_iff; auto. }
  split; [| split].
  - intros k. rewrite Hsamples.
    destruct (dict_get k pairs) as [s |] eqn:E; [| simpl; lia].
    apply dict_get_In, in_combine_r in E.
    apply zip_star_column_length in E.
    exact (Nat.le_trans _ _ _ E Hlim).
  - intros k Hk. specialize (Hget k). rewrite Hsamples.
    destruct (dict_get k pairs) as [s |] eqn:E.
    + unfold uuid_sample in Hget.
      destruct (existsb (is_uuid_true is_uuid) s) eqn:Ex,
               (forallb (is_uuid_true is_uuid) s) eqn:Fa;
        simpl in Hget; rewrite Hget.
      * pose proof (proj1 (Hex s) Ex) as Ex'.
        pose proof (proj1 (Hall s) Fa) as Fa'.
        split; [split; [intros _; split; assumption | reflexivity] |].
        split; [| now left].
        intros _ [v [Hin Hv]]. specialize (Fa' v Hin). congruence.
      * pose proof (proj1 (Hex s) Ex) as Ex'.
        split; [| split; [| now right]].
        -- rewrite Hk. split; [discriminate |].
           intros [_ H]. apply Hall in H. congruence.
        -- intros _ _. split; [exact Hk |].
           rewrite Hwarn. apply in_map, in_map_iff. exists (k, s).
           split; [reflexivity |]. apply filter_In.
           split; [now apply dict_get_In |].
           unfold mixed_sample. simpl. now rewrite Fa, Ex.
      * rewrite Hk. split; [| split; [| now right]].
        -- split; [discriminate |].
           intros [H _]. apply Hex in H. congruence.
        -- intros H. apply Hex in H. congruence.
      * rewrite Hk. split; [| split; [| now right]].
        -- split; [discriminate |].
           intros [H _]. apply Hex in H. congruence.
        -- intros H. apply Hex in H. congruence.
    + rewrite Hget, Hk. split; [| split; [| now right]].
      * split; [discriminate | intros [[v [[] _]] _]].
      * intros [v [[] _]].
  - intros k v Hk Hv. rewrite (Hget k).
    destruct (dict_get k pairs) as [s |] eqn:E; [| exact Hk].
    exfalso. apply Hv.
    apply dict_get_In, in_combine_l in E.
    unfold text_columns_of in E. apply in_map_iff in E.
    destruct E as [[k' v'] [Ek Hin]]. simpl in Ek. subst k'.
    apply filter_In in Hin. destruct Hin as [Hin Htext]. simpl in Htext.
    destruct v'; try discriminate.
    exact (NoDup_keys_functional d k v Text Hnd (dict_get_In k v d Hk) Hin).
Qed.

(** When [is_uuid] returns a truth value on every sampled value:
    [_refine_coltypes] issues [Select] over [TRIM] of each [Text] column of
    the table with [limit=16] and so samples at most 16 values of each; a
    [Text] column becomes [ColType_UUID] exactly when at least one sampled
    value is a UUID and every sampled value is a UUID; a mixed sample leaves
    the column [Text] and logs a warning; a column of another type is left
    as it is.  The dict has distinct keys, and the database answers the
    sampling [Select] as SQL promises. *)
Theorem refine_coltypes_uuid_detection
    (compile : Database -> Sql -> string) (int_of_text : string -> result Z)
    (is_uuid : Scalar -> result bool) (self : Database) (answer : string)
    (path : DbPath) (d : Dict ColType) :
  let sampling :=
    Select (map (fun c => SqlCode ("TRIM(" ++ c ++ ")")) (text_columns_of d))
      (TableName path) (Some 16) in
  let rows :=
    match query compile int_of_text self answer sampling RT_other with
    | Ok (QRaw (Some rows)) => rows
    | _ => []
    end in
  NoDup (map fst d) ->
  honours_select compile self sampling ->
  (forall r v, In r rows -> In v r -> exists b, is_uuid v = Ok b) ->
  let samples := column_samples (text_columns_of d) rows in
  let st := fst (_refine_coltypes compile int_of_text is_uuid self answer path d) in
  sample_select path (text_columns_of d) = sampling /\
  (forall k, (List.length (samples k) <= 16)%nat) /\
  (forall k,
     dict_get k d = Some Text ->
     (dict_get k (col_dict st) = Some ColType_UUID <->
      (exists v, In v (samples k) /\ is_uuid v = Ok true) /\
      (forall v, In v (samples k) -> is_uuid v = Ok true)) /\
     ((exists v, In v (samples k) /\ is_uuid v = Ok true) ->
      (exists v, In v (samples k) /\ is_uuid v = Ok false) ->
      dict_get k (col_dict st) = Some Text /\
      In (mixed_warning path k) (warnings st)) /\
     (dict_get k (col_dict st) = Some ColType_UUID \/
      dict_get k (col_dict st) = Some Text)) /\
  (forall k v,
     dict_get k d = Some v -> v <> Text -> dict_get k (col_dict st) = Some v).
Proof.
  intros sampling rows Hnd Hsel Hret samples st.
  split; [reflexivity |].
  exact (uuid_detection_of_samples compile int_of_text is_uuid self answer path d
           Hnd Hsel Hret).
Qed.

Lemma refine_coltypes_uuid_detection_witness :
  (List.length
     (column_samples (text_columns_of sample_col_dict)
        (sampled_rows compile_text int_of_text_never db_samples ""
           ["public"; "t"] sample_col_dict) "uid") <= 16)%nat /\
  dict_get "uid"
    (col_dict
       (fst (_refine_coltypes compile_text int_of_text_never is_uuid_text
               db_samples "" ["public"; "t"] sample_col_dict)))
  = Some ColType_UUID /\
  dict_get "id"
    (col_dict
       (fst (_refine_coltypes compile_text int_of_text_never is_uuid_text
               db_samples "" ["public"; "t"] sample_col_dict)))
  = Some Integer.
Proof.
  assert (H1 : NoDup (map fst sample_col_dict)).
  { simpl. repeat constructor; simpl; intuition discriminate. }
  assert (H2 : honours_select compile_text db_samples
                 (sample_select ["public"; "t"] (text_columns_of sample_col_dict))).
  { intros rows Hrows. simpl in Hrows. injection Hrows as <-.
    split; [repeat constructor |].
    intros n Hn. injection Hn as <-. simpl. lia. }
  assert (H3 : forall r v,
             In r (sampled_rows compile_text int_of_text_never db_samples ""
                     ["public"; "t"] sample_col_dict) ->
             In v r -> exists b, is_uuid_text v = Ok b).
  { intros r v Hr Hv. simpl in Hr.
    destruct Hr as [<- | [<- | []]];
      repeat (destruct Hv as [<- | Hv]; [eexists; reflexivity |]);
      destruct Hv. }
  pose proof (refine_coltypes_uuid_detection compile_text int_of_text_never
                is_uuid_text db_samples "" ["public"; "t"] sample_col_dict H1 H2 H3)
    as [_ [Hlen [Htext Hother]]].
  split; [apply Hlen |].
  split; [| apply Hother; [reflexivity | discriminate]].
  destruct (Htext "uid" eq_refl) as [Hiff _].
  apply (proj2 Hiff). split.
  - exists (SqlText "6f1b2c3d-0000-4000-8000-00000000000a").
    split; [left; reflexivity | reflexivity].
  - intros v Hv. vm_compute in Hv.
    destruct Hv as [<- | [<- | []]]; reflexivity.
Defined.

(** C4: the code fails the claim on a sample that holds a [NULL].
    [is_uuid] raises [TypeError] on [None], and [_refine_coltypes] has no
    handler around [filter(is_uuid, samples)]: with one sampled row
    [(NULL, uuid)] the call ends in that [TypeError], so the second column,
    whose only sampled value is a UUID, stays [Text]; with the sample
    [uuid, NULL] of a single column the call ends in the same way and no
    warning is logged. *)
Theorem refine_coltypes_null_sample :
  _refine_coltypes compile_text int_of_text_never is_uuid_text
    db_null_first "" ["public"; "t"] two_text_columns
  = (mk_RefineState two_text_columns [],
     Raise (mk_exn TypeError
       "one of the hex, bytes, bytes_le, fields, or int arguments must be given")) /\
  column_samples (text_columns_of two_text_columns)
    (sampled_rows compile_text int_of_text_never db_null_first ""
       ["public"; "t"] two_text_columns) "b"
  = [SqlText "6f1b2c3d-0000-4000-8000-00000000000a"] /\
  is_uuid_text (SqlText "6f1b2c3d-0000-4000-8000-00000000000a") = Ok true /\
  _refine_coltypes compile_text int_of_text_never is_uuid_text
    db_uuid_then_null "" ["public"; "t"] [("a", Text)]
  = (mk_RefineState [("a", Text)] [],
     Raise (mk_exn TypeError
       "one of the hex, bytes, bytes_le, fields, or int arguments must be given")).
Proof.
  repeat split; vm_compute; reflexivity.
Qed.

Example refine_coltypes_sample_run :
  _refine_coltypes compile_text int_of_text_never is_uuid_text
    db_samples "" ["public"; "t"] sample_col_dict
  = (mk_RefineState
       [("id", Integer); ("uid", ColType_UUID); ("note", Text)]
       ["Mixed UUID/Non-UUID values detected in column public.t.note, disabling UUID support."],
     Ok tt).
Proof. vm_compute. reflexivity. Qed.

(** On an empty table the sample has no columns, and pairing them with the
    text columns fails before any column is touched. *)
Example refine_coltypes_empty_table :
  _refine_coltypes compile_text int_of_text_never is_uuid_text
    db_public "" ["public"; "t"] sample_col_dict
  = (mk_RefineState sample_col_dict [], Raise (mk_exn AssertionError "")).
Proof. vm_compute. reflexivity. Qed.

Example query_table_schema_bad_path :
  raises
    (query_table_schema exact_log exact_log_neg compile_text int_of_text_never
       is_uuid_text lower db_without_schema "" ["t"] None)
    ValueError.
Proof. eexists. reflexivity. Qed.

(** ** The per-thread connection pool *)

Section ThreadedFacts.

Variable create_connection : nat -> result Connection.

(** A worker whose initialization fails with [ModuleNotFoundError]
    leaves the error in [_init_error], and the pool stays usable. *)
Lemma start_worker_captures (w : nat) (s : ThreadedDatabase) (e : exn) :
  pool_started s w = false ->
  thread_local_conn s w = None ->
  create_connection w = Raise e ->
  exn_class e = ModuleNotFoundError ->
  _init_error (start_worker create_connection w s) = Some e /\
  pool_broken (start_worker create_connection w s) = pool_broken s /\
  executed (start_worker create_connection w s) = executed s.
Proof.
  intros Hst Hconn Hcreate Hcls.
  unfold start_worker, set_conn. rewrite Hst, Hconn, Hcreate, Hcls.
  simpl. auto.
Qed.

(** Starting a worker never clears [_init_error] and executes nothing. *)
Lemma start_worker_keeps_error (w : nat) (s : ThreadedDatabase) (e0 : exn) :
  _init_error s = Some e0 ->
  executed (start_worker create_connection w s) = executed s /\
  exists e1,
    _init_error (start_worker create_connection w s) = Some e1 /\
    (e1 = e0 \/
     (create_connection w = Raise e1 /\ exn_class e1 = ModuleNotFoundError)).
Proof.
  intros He0. unfold start_worker, set_conn.
  destruct (pool_started s w); [eauto |].
  destruct (thread_local_conn s w); [simpl; eauto |].
  destruct (create_connection w) as [conn | e] eqn:Hc; [simpl; eauto |].
  destruct (exn_class e) eqn:Hcls; simpl; eauto 10.
Qed.

(** One query in a state that holds an initialization error. *)
Lemma threaded_query_sticky (w : nat) (sql : string) (s : ThreadedDatabase)
    (e0 : exn) :
  _init_error s = Some e0 ->
  executed (fst (threaded_query create_connection w sql s)) = executed s /\
  exists e1,
    _init_error (fst (threaded_query create_connection w sql s)) = Some e1 /\
    (e1 = e0 \/
     (create_connection w = Raise e1 /\ exn_class e1 = ModuleNotFoundError)) /\
    (snd (threaded_query create_connection w sql s) = Raise e1 \/
     snd (threaded_query create_connection w sql s)
       = Raise (mk_exn BrokenThreadPool "")).
Proof.
  intros He0. unfold threaded_query.
  destruct (pool_broken s); [simpl; eauto 10 |].
  destruct (start_worker_keeps_error w s e0 He0) as [Hex [e1 [He1 Hor]]].
  destruct (pool_broken (start_worker create_connection w s));
    [simpl; eauto 10 |].
  unfold _query_in_worker. rewrite He1. simpl. eauto 10.
Qed.

Lemma run_queries_cons (w : nat) (sql : string) (qs : list (nat * string))
    (s : ThreadedDatabase) :
  run_queries create_connection ((w, sql) :: qs) s =
    (fst (run_queries create_connection qs
            (fst (threaded_query create_connection w sql s))),
     snd (threaded_query create_connection w sql s)
     :: snd (run_queries create_connection qs
               (fst (threaded_query create_connection w sql s)))).
Proof.
  simpl. destruct (threaded_query create_connection w sql s) as [s1 r].
  simpl. now destruct (run_queries create_connection qs s1).
Qed.

(** Every query after an initialization error was captured fails, with a
    captured error or because the pool is broken, and executes nothing. *)
Lemma run_queries_sticky (s0 : ThreadedDatabase) (qs : list (nat * string)) :
  forall s,
    (exists e, _init_error s = Some e /\ captured create_connection s0 e) ->
    executed (fst (run_queries create_connection qs s)) = executed s /\
    (exists e, _init_error (fst (run_queries create_connection qs s)) = Some e /\
               captured create_connection s0 e) /\
    Forall (fun r => exists e,
              r = Raise e /\
              (captured create_connection s0 e \/
               e = mk_exn BrokenThreadPool ""))
      (snd (run_queries create_connection qs s)).
Proof.
  induction qs as [| [w sql] qs IH]; intros s [e0 [He0 Hcap]].
  - simpl. eauto.
  - rewrite run_queries_cons. simpl fst. simpl snd.
    destruct (threaded_query_sticky w sql s e0 He0)
      as [Hex [e1 [He1 [Hor Hres]]]].
    assert (Hcap1 : captured create_connection s0 e1).
    { destruct Hor as [-> | [Hc Hcls]]; [exact Hcap |]. right. eauto. }
    destruct (IH (fst (threaded_query create_connection w sql s)))
      as [Hex' [Hinv Hall]]; [eauto |].
    split; [congruence |]. split; [exact Hinv |].
    constructor; [| exact Hall].
    destruct Hres as [-> | ->]; eauto.
Qed.

End ThreadedFacts.

(** C8 as stated fails: an initialization failure that is not a
    [ModuleNotFoundError] is not captured; [_init_error] stays [None] and
    the query fails with [BrokenThreadPool], not with the initialization
    error. *)
Lemma init_error_not_captured :
  _init_error (fst (threaded_query connection_refused 0 "SELECT 1" (__init__ 1)))
    = None /\
  snd (threaded_query connection_refused 0 "SELECT 1" (__init__ 1))
    = Raise (mk_exn BrokenThreadPool "") /\
  ~ (_init_error (fst (threaded_query connection_refused 0 "SELECT 1" (__init__ 1)))
       = Some connection_refused_error /\
     snd (threaded_query connection_refused 0 "SELECT 1" (__init__ 1))
       = Raise connection_refused_error).
Proof.
  split; [reflexivity | split; [reflexivity |]].
  intros [H _]. discriminate.
Qed.

(** C8 (amended): when a worker's connection initialization fails with
    [ModuleNotFoundError], the error is stored in [_init_error] and the
    query that started the worker re-raises it; from then on every query
    fails without reaching a connection, re-raising a captured
    initialization error (or failing with [BrokenThreadPool] if another
    worker's initialization broke the pool). *)
Theorem init_error_captured_and_sticky
    (create_connection : nat -> result Connection) :
  (forall w sql s e,
     pool_broken s = false ->
     pool_started s w = false ->
     thread_local_conn s w = None ->
     create_connection w = Raise e ->
     exn_class e = ModuleNotFoundError ->
     _init_error (fst (threaded_query create_connection w sql s)) = Some e /\
     snd (threaded_query create_connection w sql s) = Raise e /\
     executed (fst (threaded_query create_connection w sql s)) = executed s) /\
  (forall s qs e,
     _init_error s = Some e ->
     executed (fst (run_queries create_connection qs s)) = executed s /\
     _init_error (fst (run_queries create_connection qs s)) <> None /\
     Forall (fun r => exists e',
               r = Raise e' /\
               (captured create_connection s e' \/
                e' = mk_exn BrokenThreadPool ""))
       (snd (run_queries create_connection qs s))).
Proof.
  split.
  - intros w sql s e Hbroken Hst Hconn Hcreate Hcls.
    destruct (start_worker_captures create_connection w s e Hst Hconn Hcreate Hcls)
      as [He [Hb Hex]].
    unfold threaded_query. rewrite Hbroken, Hb, Hbroken.
    unfold _query_in_worker. rewrite He. simpl. auto.
  - intros s qs e He.
    destruct (run_queries_sticky create_connection s qs s) as [Hex [Hinv Hall]].
    { exists e. split; [exact He | now left]. }
    split; [exact Hex |]. split; [| exact Hall].
    destruct Hinv as [e' [He' _]]. congruence.
Qed.

Lemma init_error_captured_and_sticky_witness :
  _init_error (fst (threaded_query missing_driver 0 "SELECT 1" (__init__ 1)))
    = Some missing_driver_error /\
  snd (threaded_query missing_driver 0 "SELECT 1" (__init__ 1))
    = Raise missing_driver_error /\
  executed (fst (run_queries missing_driver [(0%nat, "SELECT 2"); (1%nat, "SELECT 3")]
                   (fst (threaded_query missing_driver 0 "SELECT 1" (__init__ 1)))))
    = [].
Proof.
  destruct (init_error_captured_and_sticky missing_driver) as [Hcap Hsticky].
  destruct (Hcap 0%nat "SELECT 1" (__init__ 1) missing_driver_error
              eq_refl eq_refl eq_refl eq_refl eq_refl) as [H1 [H2 H3]].
  split; [exact H1 | split; [exact H2 |]].
  destruct (Hsticky (fst (threaded_query missing_driver 0 "SELECT 1" (__init__ 1)))
              [(0%nat, "SELECT 2"); (1%nat, "SELECT 3")] missing_driver_error H1)
    as [Hex _].
  rewrite Hex. exact H3.
Defined.

(** When every worker fails for the same missing module, every query
    raises that very error. *)
Example missing_driver_queries :
  snd (run_queries missing_driver
         [(0%nat, "SELECT 1"); (1%nat, "SELECT 2"); (0%nat, "SELECT 3")] (__init__ 2))
  = [Raise missing_driver_error; Raise missing_driver_error;
     Raise missing_driver_error].
Proof. reflexivity. Qed.

(** ** Table names *)

Lemma str_split_not_nil (sep : ascii) (s : string) : str_split sep s <> [].
Proof.
  destruct s as [| c s]; simpl; [discriminate |].
  destruct (Ascii.eqb c sep); [discriminate |].
  destruct (str_split sep s); discriminate.
Qed.

Lemma str_split_length (sep : ascii) (s : string) :
  List.length (str_split sep s) = S (count_char sep s).
Proof.
  induction s as [| c s IH]; simpl; [reflexivity |].
  destruct (Ascii.eqb c sep); simpl; [now rewrite IH |].
  destruct (str_split sep s) as [| x xs]; simpl in *; [discriminate | exact IH].
Qed.

Lemma str_split_pieces (sep : ascii) (s : string) :
  Forall (fun piece => count_char sep piece = 0%nat) (str_split sep s).
Proof.
  induction s as [| c s IH]; simpl; [repeat constructor |].
  destruct (Ascii.eqb c sep) eqn:E; [constructor; [reflexivity | exact IH] |].
  destruct (str_split sep s) as [| x xs]; simpl.
  - constructor; [simpl; now rewrite E | constructor].
  - inversion IH; subst. constructor; [simpl; rewrite E; assumption | assumption].
Qed.

Lemma concat_cons (sep x : string) (xs : list string) :
  xs <> [] -> String.concat sep (x :: xs) = x ++ sep ++ String.concat sep xs.
Proof.
  destruct xs; [congruence | reflexivity].
Qed.

Lemma join_str_split (sep : ascii) (s : string) :
  join (String sep EmptyString) (str_split sep s) = s.
Proof.
  unfold join. induction s as [| c s IH]; [reflexivity |].
  simpl str_split. destruct (Ascii.eqb c sep) eqn:E.
  - apply Ascii.eqb_eq in E. subst c.
    rewrite concat_cons by apply str_split_not_nil.
    simpl. now rewrite IH.
  - pose proof (str_split_not_nil sep s) as Hne.
    destruct (str_split sep s) as [| x xs]; [congruence |].
    destruct xs as [| y ys].
    + simpl in *. now rewrite IH.
    + rewrite concat_cons by discriminate.
      rewrite concat_cons in IH by discriminate.
      rewrite <- IH. reflexivity.
Qed.

Lemma str_split_app_sep (sep : ascii) (x : string) (rest : string) :
  count_char sep x = 0%nat ->
  str_split sep (x ++ String sep rest) = x :: str_split sep rest.
Proof.
  induction x as [| c x IH]; simpl; intros Hx.
  - now rewrite Ascii.eqb_refl.
  - destruct (Ascii.eqb c sep); [discriminate |].
    now rewrite IH.
Qed.

Lemma str_split_no_sep (sep : ascii) (x : string) :
  count_char sep x = 0%nat -> str_split sep x = [x].
Proof.
  induction x as [| c x IH]; simpl; intros Hx; [reflexivity |].
  destruct (Ascii.eqb c sep); [discriminate |].
  now rewrite IH.
Qed.

(** Splitting a table name and joining the pieces with dots gives the name
    back; the path has one component more than the name has dots, so it is
    never empty, and no component contains a dot. *)
Theorem parse_table_name_join (t : string) :
  join "." (parse_table_name t) = t /\
  List.length (parse_table_name t) = S (count_char "." t) /\
  Forall (fun piece => count_char "." piece = 0%nat) (parse_table_name t).
Proof.
  split; [apply join_str_split | split; [apply str_split_length | apply str_split_pieces]].
Qed.

(** Joining a non-empty path whose components contain no dot and parsing
    the result gives the path back. *)
Theorem parse_table_name_of_join (path : DbPath) :
  path <> [] ->
  Forall (fun piece => count_char "." piece = 0%nat) path ->
  parse_table_name (join "." path) = path.
Proof.
  unfold parse_table_name, join.
  induction path as [| x xs IH]; [congruence |].
  intros _ Hall. inversion Hall as [| ? ? Hx Hxs]; subst.
  destruct xs as [| y ys].
  - simpl. now apply str_split_no_sep.
  - rewrite concat_cons by discriminate.
    change ("." ++ String.concat "." (y :: ys))
      with (String "."%char (String.concat "." (y :: ys))).
    rewrite str_split_app_sep by exact Hx.
    now rewrite IH.
Qed.

Lemma parse_table_name_of_join_witness :
  parse_table_name (join "." ["public"; "ratings"]) = ["public"; "ratings"].
Proof.
  apply (parse_table_name_of_join ["public"; "ratings"]).
  - discriminate.
  - repeat constructor.
Defined.

Lemma normalize_table_path_raises_iff (self : Database) (path : DbPath) :
  (exists e, _normalize_table_path self path = Raise e) <->
  List.length path <> 1%nat /\ List.length path <> 2%nat.
Proof.
  destruct path as [| a [| b [| c rest]]]; simpl.
  - split; [intros _; lia | intros _; eexists; reflexivity].
  - split; [| lia].
    intros [e H]. destruct (default_schema self) as [sch |]; [| discriminate].
    destruct (truthy_str sch); discriminate.
  - split; [intros [e H]; discriminate | lia].
  - split; [intros _; lia | intros _; eexists; reflexivity].
Qed.

(** A parsed table name is rejected by [_normalize_table_path] exactly
    when the name has two dots or more; the rejection is a [ValueError]. *)
Theorem parsed_table_name_rejected_iff (self : Database) (t : string) :
  raises (_normalize_table_path self (parse_table_name t)) ValueError
  <-> (2 <= count_char "." t)%nat.
Proof.
  pose proof (str_split_length "." t) as Hlen.
  fold (parse_table_name t) in Hlen.
  split.
  - intros [msg H].
    assert (Hr : exists e, _normalize_table_path self (parse_table_name t) = Raise e)
      by eauto.
    apply normalize_table_path_raises_iff in Hr. lia.
  - intros Hdots.
    destruct (parse_table_name t) as [| a [| b [| c rest]]]; simpl in Hlen; try lia.
    eexists. reflexivity.
Qed.

(** ** The schema query and the parsing of column types *)

(** [select_table_schema] builds its query exactly for the paths that come
    out of normalisation with two components: a two-component path, or a
    one-component path on a connection with a non-empty default schema.
    Every other path raises [ValueError]; that includes a one-component
    path on a connection without default schema, which normalisation lets
    through and the unpacking into [(schema, table)] rejects. *)
Theorem select_table_schema_succeeds_iff (self : Database) (path : DbPath) :
  ((exists sql, select_table_schema self path = Ok sql) <->
   (List.length path = 2%nat \/
    (List.length path = 1%nat /\
     exists schema, default_schema self = Some schema /\ schema <> ""))) /\
  ((exists sql, select_table_schema self path = Ok sql) \/
   raises (select_table_schema self path) ValueError).
Proof.
  unfold select_table_schema.
  destruct path as [| a [| b [| c rest]]]; simpl.
  - split; [| right; eexists; reflexivity].
    split; [intros [sql H]; discriminate | intros [H | [H _]]; discriminate].
  - destruct (default_schema self) as [[| ch sch] |]; simpl.
    + split; [| right; eexists; reflexivity].
      split; [intros [sql H]; discriminate |].
      intros [H | [_ [s [Hs Hne]]]]; [discriminate | congruence].
    + split; [| left; eexists; reflexivity].
      split; [| intros _; eexists; reflexivity].
      intros _. right. split; [reflexivity |]. eexists. split; [reflexivity | discriminate].
    + split; [| right; eexists; reflexivity].
      split; [intros [sql H]; discriminate |].
      intros [H | [_ [s [Hs _]]]]; discriminate.
  - split; [| left; eexists; reflexivity].
    split; [intros _; now left | intros _; eexists; reflexivity].
  - split; [| right; eexists; reflexivity].
    split; [intros [sql H]; discriminate | intros [H | [H _]]; discriminate].
Qed.

(** [_parse_type] fails in three cases only: a [Decimal] class without
    [numeric_scale]; a class outside the five families it knows; and a
    [Float] class with a negative precision on which [math.log] raises
    (the float [2**p] has underflowed to [0.0]).  A type representation
    that the dialect's table does not list never fails: it gives
    [UnknownColType] with the representation kept. *)
Theorem parse_type_raises_iff (math_log : Z -> Z -> R)
    (math_log_neg : Z -> result R) (self : Database)
    (table_path : DbPath) (col_name type_repr : string)
    (datetime_precision numeric_precision numeric_scale : option Z) :
  ((exists e,
      _parse_type math_log math_log_neg self table_path col_name type_repr
        datetime_precision numeric_precision numeric_scale = Raise e)
   <->
   (_parse_type_repr self type_repr = Some DecimalClass /\ numeric_scale = None) \/
   (exists cls, _parse_type_repr self type_repr = Some (OtherClass cls)) \/
   (_parse_type_repr self type_repr = Some FloatClass /\
    exists p e,
      p = match numeric_precision with
          | Some p' => p'
          | None => DEFAULT_NUMERIC_PRECISION
          end /\
      p < 0 /\ math_log_neg p = Raise e)) /\
  (_parse_type_repr self type_repr = None ->
   _parse_type math_log math_log_neg self table_path col_name type_repr
     datetime_precision numeric_precision numeric_scale
   = Ok (UnknownColType type_repr)).
Proof.
  unfold _parse_type.
  destruct (_parse_type_repr self type_repr) as [[cls | | | | | cls] |];
    (split; [| try discriminate; reflexivity]).
  - split; [intros [e H]; discriminate |].
    intros [[H _] | [[c H] | [H _]]]; discriminate.
  - split; [intros [e H]; discriminate |].
    intros [[H _] | [[c H] | [H _]]]; discriminate.
  - destruct numeric_scale as [sc |].
    + split; [intros [e H]; discriminate |].
      intros [[_ H] | [[c H] | [H _]]]; discriminate.
    + split; [intros _; now left | intros _; eexists; reflexivity].
  - set (p := match numeric_precision with
              | Some p' => p'
              | None => DEFAULT_NUMERIC_PRECISION
              end).
    unfold convert_db_precision.
    destruct (0 <=? p) eqn:Hp.
    + apply Z.leb_le in Hp. split; [intros [e H]; discriminate |].
      intros [[H _] | [[c H] | [_ [p' [e [-> [Hneg _]]]]]]]; try discriminate.
      fold p in Hneg. lia.
    + apply Z.leb_gt in Hp.
      destruct (math_log_neg p) as [y | e] eqn:Hlog; simpl.
      * split; [intros [e H]; discriminate |].
        intros [[H _] | [[c H] | [_ [p' [e [-> [_ He]]]]]]]; try discriminate.
        fold p in He. congruence.
      * split; [| intros _; eexists; reflexivity].
        intros _. right. right. split; [reflexivity |].
        exists p, e. auto.
  - split; [intros [e H]; discriminate |].
    intros [[H _] | [[c H] | [H _]]]; discriminate.
  - split; [intros _; right; left; eauto | intros _; eexists; reflexivity].
  - split; [intros [e H]; discriminate |].
    intros [[H _] | [[c H] | [H _]]]; discriminate.
Qed.

Lemma parse_type_raises_iff_witness :
  exists e,
    _parse_type exact_log exact_log_neg db_all_types ["public"; "t"] "x" "real"
      None (Some (-2000)) None = Raise e.
Proof.
  apply (proj2 (proj1 (parse_type_raises_iff exact_log exact_log_neg db_all_types
                         ["public"; "t"] "x" "real" None (Some (-2000)) None))).
  right. right. split; [reflexivity |].
  exists (-2000), (mk_exn ValueError "math domain error").
  split; [reflexivity | split; [lia | reflexivity]].
Defined.

(** A column of a [Float] class gets as precision the number of decimal
    digits of its binary precision, [floor(log10(2^p))], where [p] is
    [numeric_precision] or, when that is [NULL], the default 24 (which
    gives 7 digits); this holds for [p] in [1..128] and a [math.log] within
    [1/256] of the exact logarithm. *)
Theorem parse_type_float_digits (math_log : Z -> Z -> R)
    (math_log_neg : Z -> result R) (self : Database)
    (table_path : DbPath) (col_name type_repr : string)
    (datetime_precision numeric_precision numeric_scale : option Z) (p : Z) :
  _parse_type_repr self type_repr = Some FloatClass ->
  p = match numeric_precision with
      | Some p' => p'
      | None => DEFAULT_NUMERIC_PRECISION
      end ->
  1 <= p <= 128 ->
  (Rabs (math_log (2 ^ p)%Z 10%Z - ln (IZR (2 ^ p)) / ln 10) <= 1 / 256)%R ->
  _parse_type math_log math_log_neg self table_path col_name type_repr
    datetime_precision numeric_precision numeric_scale
  = Ok (Float (floor_log10 (2 ^ p))) /\
  (numeric_precision = None -> floor_log10 (2 ^ p) = 7).
Proof.
  intros Hcls Hp Hrange Hnear. split.
  - unfold _parse_type, convert_db_precision. rewrite Hcls, <- Hp.
    replace (0 <=? p) with true by (symmetry; apply Z.leb_le; lia).
    now rewrite (convert_digits_floor_log10 math_log p Hrange Hnear).
  - intros Hnone. rewrite Hnone in Hp. subst p. reflexivity.
Qed.

Lemma parse_type_float_digits_witness :
  _parse_type exact_log exact_log_neg db_all_types ["public"; "t"] "x" "real"
    None (Some 53) None
  = Ok (Float 15).
Proof.
  refine (proj1 (parse_type_float_digits exact_log exact_log_neg db_all_types ["public"; "t"]
                   "x" "real" None (Some 53) None 53 eq_refl eq_refl _ _)).
  - lia.
  - unfold exact_log. rewrite Rminus_diag, Rabs_R0. lra.
Defined.

(** ** The result shapes of [Database.query] *)

Lemma map_result_one_iff {A : Type} (rows : list (list A)) (l : list A) :
  map_result _one rows = Ok l <-> rows = map (fun v => [v]) l.
Proof.
  revert l. induction rows as [| r rows IH]; intros l; simpl.
  - split.
    + intros H. injection H as <-. reflexivity.
    + destruct l; [reflexivity | discriminate].
  - destruct r as [| v [| v' r']]; simpl.
    + split; [discriminate | destruct l; discriminate].
    + destruct (map_result _one rows) as [ys |] eqn:E; simpl.
      * split.
        -- intros H. injection H as <-. simpl. f_equal. now apply IH.
        -- destruct l as [| x l]; [discriminate |]. simpl. intros H.
           injection H as -> Hrows. f_equal. f_equal.
           apply IH in Hrows. congruence.
      * split; [discriminate |].
        destruct l as [| x l]; [discriminate |]. simpl. intros H.
        injection H as -> Hrows. apply IH in Hrows. discriminate.
    + split; [discriminate | destruct l; discriminate].
Qed.

Lemma map_result_one_raises {A : Type} (rows : list (list A)) (e : exn) :
  map_result _one rows = Raise e -> exn_class e = ValueError.
Proof.
  induction rows as [| r rows IH]; simpl; [discriminate |].
  destruct r as [| v [| v' r']]; simpl.
  - intros H. now injection H as <-.
  - destruct (map_result _one rows); simpl; [discriminate |].
    intros H. injection H as <-. now apply IH.
  - intros H. now injection H as <-.
Qed.

Section QueryShapes.

Variable compile : Database -> Sql -> string.
Variable int_of_text : string -> result Z.

(** An [int] query gives a value only when the answer is one row with one
    column; the value is then [None] or an integer. *)
Theorem query_int_needs_single_scalar (self : Database) (answer : string)
    (sql_ast : Sql) (q : QueryResult) :
  query compile int_of_text self answer sql_ast RT_int = Ok q ->
  (exists v, _query self (compile self sql_ast) = Ok (Some [[v]])) /\
  (q = QNone \/ exists i, q = QInt i).
Proof.
  unfold query.
  destruct (confirm_interactive compile self answer sql_ast); simpl; [| discriminate].
  destruct (_query self (compile self sql_ast)) as [[rows |] |]; simpl;
    try discriminate.
  destruct rows as [| [| v [| v' r]] [| r' rows]]; simpl; try discriminate.
  intros H. split; [eauto |].
  destruct v; simpl in H.
  - injection H as <-. now left.
  - injection H as <-. right. eauto.
  - injection H as <-. right. eauto.
  - destruct (int_of_text s); simpl in H; [| discriminate].
    injection H as <-. right. eauto.
Qed.

(** A [tuple] query gives the row exactly when the answer is one row; any
    other number of rows fails the assertion. *)
Theorem query_tuple_single_row (self : Database) (answer : string)
    (sql_ast : Sql) (rows : list Row) :
  confirm_interactive compile self answer sql_ast = Ok tt ->
  _query self (compile self sql_ast) = Ok (Some rows) ->
  (forall r,
     query compile int_of_text self answer sql_ast RT_tuple = Ok (QRow r)
     <-> rows = [r]) /\
  (List.length rows <> 1%nat ->
   raises (query compile int_of_text self answer sql_ast RT_tuple) AssertionError).
Proof.
  intros Hgate Hres. unfold query. rewrite Hgate. simpl. rewrite Hres. simpl.
  destruct rows as [| r0 [| r1 rows]]; split.
  - intros r. split; discriminate.
  - intros _. eexists. reflexivity.
  - intros r. split; intros H; injection H as ->; reflexivity.
  - simpl. congruence.
  - intros r. split; discriminate.
  - intros _. eexists. reflexivity.
Qed.

(** A [List[int]] or [List[str]] query gives the list of the sole values
    of the rows, in order, exactly when every row has one column; a row of
    another width raises [ValueError]. *)
Theorem query_list_of_scalars (self : Database) (answer : string)
    (sql_ast : Sql) (rows : list Row) (res_type : ResType) :
  res_type = RT_List_int \/ res_type = RT_List_str ->
  confirm_interactive compile self answer sql_ast = Ok tt ->
  _query self (compile self sql_ast) = Ok (Some rows) ->
  (forall l,
     query compile int_of_text self answer sql_ast res_type = Ok (QScalars l)
     <-> rows = map (fun v => [v]) l) /\
  ((exists l, query compile int_of_text self answer sql_ast res_type = Ok (QScalars l)) \/
   raises (query compile int_of_text self answer sql_ast res_type) ValueError).
Proof.
  intros Hrt Hgate Hres.
  assert (Hq : query compile int_of_text self answer sql_ast res_type =
               (l <- map_result _one rows ;; Ok (QScalars l))).
  { unfold query. rewrite Hgate. simpl. rewrite Hres.
    destruct Hrt as [-> | ->]; reflexivity. }
  rewrite Hq. split.
  - intros l. pose proof (map_result_one_iff rows l) as Hm.
    destruct (map_result _one rows) as [l0 |]; simpl; split; intros H.
    + injection H as ->. now apply Hm.
    + apply Hm in H. congruence.
    + discriminate.
    + apply Hm in H. discriminate.
  - destruct (map_result _one rows) as [l | e] eqn:E; simpl; [left; eauto |].
    right. apply map_result_one_raises in E.
    destruct e as [cls msg]. simpl in E. subst cls. eexists. reflexivity.
Qed.

(** The interactive gate.  Outside interactive mode, and for a statement
    that is not a [Select], the user's answer is never consulted.  In
    interactive mode, a [Select] whose [EXPLAIN] ran is abandoned with
    [SystemExit(1)] when the answer, in lower case, is neither [y] nor
    [yes], whatever result type was asked for. *)
Theorem query_interactive_gate (self : Database) (sql_ast : Sql)
    (res_type : ResType) :
  (_interactive self = false \/ is_Select sql_ast = false ->
   forall answer answer',
     query compile int_of_text self answer sql_ast res_type =
     query compile int_of_text self answer' sql_ast res_type) /\
  (_interactive self = true -> is_Select sql_ast = true ->
   (exists plan, _query self (compile self (Explain sql_ast)) = Ok plan) ->
   forall answer,
     str_in (lower answer) ["y"; "yes"] = false ->
     query compile int_of_text self answer sql_ast res_type
     = Raise (mk_exn SystemExit "1")).
Proof.
  split.
  - intros Hoff answer answer'. unfold query, confirm_interactive.
    destruct Hoff as [-> | ->]; [reflexivity | now rewrite andb_false_r].
  - intros Hon Hsel [plan Hplan] answer Hno.
    unfold query, confirm_interactive. rewrite Hon, Hsel. simpl.
    rewrite Hplan. simpl. unfold str_in in Hno. simpl in Hno.
    rewrite Hno. reflexivity.
Qed.

End QueryShapes.

Lemma query_int_needs_single_scalar_witness :
  (exists v, _query db_null_sum (compile_text db_null_sum (SqlCode "SELECT sum(x) FROM t"))
             = Ok (Some [[v]])) /\
  (QNone = QNone \/ exists i, QNone = QInt i).
Proof.
  apply (query_int_needs_single_scalar compile_text int_of_text_never
           db_null_sum "" (SqlCode "SELECT sum(x) FROM t") QNone).
  reflexivity.
Defined.

Lemma query_tuple_single_row_witness :
  raises (query compile_text int_of_text_never db_two_rows ""
            (SqlCode "SELECT x FROM t") RT_tuple) AssertionError.
Proof.
  apply (proj2 (query_tuple_single_row compile_text int_of_text_never
                  db_two_rows "" (SqlCode "SELECT x FROM t")
                  [[SqlInt 1]; [SqlInt 2]] eq_refl eq_refl)).
  simpl. lia.
Defined.

Lemma query_list_of_scalars_witness :
  query compile_text int_of_text_never db_two_rows ""
    (SqlCode "SELECT x FROM t") RT_List_int
  = Ok (QScalars [SqlInt 1; SqlInt 2]).
Proof.
  apply (proj1 (query_list_of_scalars compile_text int_of_text_never
                  db_two_rows "" (SqlCode "SELECT x FROM t")
                  [[SqlInt 1]; [SqlInt 2]] RT_List_int
                  (or_introl eq_refl) eq_refl eq_refl)).
  reflexivity.
Defined.

Lemma query_interactive_gate_witness :
  query compile_text int_of_text_never db_interactive "no"
    (Select [SqlCode "x"] (TableName ["t"]) None) RT_int
  = Raise (mk_exn SystemExit "1").
Proof.
  apply (proj2 (query_interactive_gate compile_text int_of_text_never
                  db_interactive (Select [SqlCode "x"] (TableName ["t"]) None) RT_int)
           eq_refl eq_refl).
  - eexists. reflexivity.
  - reflexivity.
Defined.

(** ** Running a statement on a connection *)

Lemma prefix_iff (p s : string) :
  String.prefix p s = true <-> exists rest, s = p ++ rest.
Proof.
  revert s. induction p as [| c p IH]; intros s; simpl.
  - destruct s; split; eauto.
  - destruct s as [| c' s]; [split; [discriminate | intros [rest H]; discriminate] |].
    simpl. destruct (ascii_dec c c') as [-> | Hne].
    + split.
      * intros H. apply IH in H. destruct H as [rest ->]. now exists rest.
      * intros [rest H]. injection H as H. apply IH. now exists rest.
    + split; [discriminate |]. intros [rest H]. injection H as H _. congruence.
Qed.

(** [_query_conn] hands back the rows exactly when the statement starts
    with [select] in any letter case; for every other statement, one with a
    leading blank included, it runs the statement and returns [None].  A
    failure of the driver comes through as it is. *)
Theorem query_conn_select_only (conn : Connection) (sql_code : string) :
  (forall e, conn_execute conn sql_code = Raise e ->
             _query_conn conn sql_code = Raise e) /\
  (forall rows, conn_execute conn sql_code = Ok rows ->
     ((exists rest, lower sql_code = "select" ++ rest) ->
      _query_conn conn sql_code = Ok (Some rows)) /\
     (~ (exists rest, lower sql_code = "select" ++ rest) ->
      _query_conn conn sql_code = Ok None)).
Proof.
  unfold _query_conn, startswith. split.
  - intros e ->. reflexivity.
  - intros rows ->. simpl.
    pose proof (prefix_iff "select" (lower sql_code)) as Hp.
    destruct (String.prefix "select" (lower sql_code)).
    + split; [reflexivity |]. intros Hn. exfalso. apply Hn, Hp. reflexivity.
    + split; [| reflexivity]. intros H. apply Hp in H. discriminate.
Qed.

Lemma query_conn_select_only_witness :
  _query_conn one_row_connection "Select 1" = Ok (Some [[SqlInt 1]]).
Proof.
  apply (proj1 (proj2 (query_conn_select_only one_row_connection "Select 1")
                  [[SqlInt 1]] eq_refl)).
  exists " 1". reflexivity.
Defined.

Example query_conn_upper_case :
  _query_conn one_row_connection "SELECT 1" = Ok (Some [[SqlInt 1]]).
Proof. reflexivity. Qed.

Example query_conn_leading_blank :
  _query_conn one_row_connection " select 1" = Ok None.
Proof. reflexivity. Qed.

(** ** [import_helper] *)

Lemma import_helper_wraps {A : Type} (package : option string) (text : string)
    (e : exn) :
  exn_class e = ModuleNotFoundError ->
  exists e',
    import_helper (A := A) package text (Raise e) = Raise e' /\
    exn_class e' = ModuleNotFoundError /\
    exists rest, exn_msg e' = exn_msg e ++ rest.
Proof.
  intros Hcls. simpl. rewrite Hcls.
  eexists. split; [reflexivity |]. split; [reflexivity |].
  simpl. eexists. reflexivity.
Qed.

(** [import_helper] leaves a result and every exception other than
    [ModuleNotFoundError] as they are; a [ModuleNotFoundError] stays one,
    and its new text starts with the old text. *)
Theorem import_helper_keeps_class {A : Type} (package : option string)
    (text : string) (f_result : result A) :
  (forall r, f_result = Ok r -> import_helper package text f_result = Ok r) /\
  (forall e, f_result = Raise e -> exn_class e <> ModuleNotFoundError ->
             import_helper package text f_result = Raise e) /\
  (forall e, f_result = Raise e -> exn_class e = ModuleNotFoundError ->
     exists e',
       import_helper package text f_result = Raise e' /\
       exn_class e' = ModuleNotFoundError /\
       exists rest, exn_msg e' = exn_msg e ++ rest).
Proof.
  split; [| split].
  - intros r ->. reflexivity.
  - intros e -> Hcls. simpl. destruct (exn_class e); congruence.
  - intros e -> Hcls. now apply import_helper_wraps.
Qed.

Lemma import_helper_keeps_class_witness :
  exists e',
    import_helper (A := Connection) (Some "postgresql") "" (missing_driver 0) = Raise e' /\
    exn_class e' = ModuleNotFoundError /\
    exists rest, exn_msg e' = exn_msg missing_driver_error ++ rest.
Proof.
  exact (proj2 (proj2 (import_helper_keeps_class (Some "postgresql") ""
                         (missing_driver 0)))
           missing_driver_error eq_refl eq_refl).
Defined.

Example import_helper_hint :
  import_helper (A := unit) (Some "postgresql") "" (Raise missing_driver_error)
  = Raise (mk_exn ModuleNotFoundError
             ("No module named 'psycopg2'" ++ newline ++ newline
              ++ "You can install it using 'pip install data-diff[postgresql]'."
              ++ newline)).
Proof. reflexivity. Qed.

(** ** More on the per-thread connection pool *)

Section PoolFacts.

Variable create_connection : nat -> result Connection.

(** A healthy pool runs the query on the worker's own connection: a fresh
    worker opens its connection first and keeps it, a worker that has one
    uses it without calling [create_connection] again; either way the
    statement is logged once and the result is that of [_query_conn]. *)
Theorem threaded_query_runs_on_worker_connection (w : nat) (sql : string)
    (s : ThreadedDatabase) (conn : Connection) :
  pool_broken s = false ->
  _init_error s = None ->
  (pool_started s w = false /\ thread_local_conn s w = None /\
   create_connection w = Ok conn) \/
  (pool_started s w = true /\ thread_local_conn s w = Some conn) ->
  snd (threaded_query create_connection w sql s) = _query_conn conn sql /\
  thread_local_conn (fst (threaded_query create_connection w sql s)) w = Some conn /\
  executed (fst (threaded_query create_connection w sql s))
    = (executed s ++ [(w, sql)])%list /\
  _init_error (fst (threaded_query create_connection w sql s)) = None /\
  pool_broken (fst (threaded_query create_connection w sql s)) = false.
Proof.
  intros Hb He [[Hst [Hc Hcreate]] | [Hst Hc]];
    unfold threaded_query, start_worker, set_conn, _query_in_worker;
    rewrite Hb, Hst.
  - rewrite Hc, Hcreate. simpl. rewrite ?Hb, ?He. simpl.
    unfold update. rewrite ?Nat.eqb_refl. simpl.
    unfold update. rewrite ?Nat.eqb_refl. auto.
  - rewrite ?Hb, ?He, ?Hc. simpl. auto.
Qed.

Lemma start_worker_keeps_conn (w w' : nat) (s : ThreadedDatabase) (c : Connection) :
  thread_local_conn s w' = Some c ->
  thread_local_conn (start_worker create_connection w s) w' = Some c.
Proof.
  intros Hc. unfold start_worker, set_conn.
  destruct (pool_started s w); [exact Hc |].
  destruct (thread_local_conn s w) eqn:Hw; [exact Hc |].
  destruct (create_connection w) as [conn | e]; simpl.
  - unfold update. destruct (Nat.eqb w' w) eqn:E; [| exact Hc].
    apply Nat.eqb_eq in E. congruence.
  - destruct (exn_class e); exact Hc.
Qed.

Lemma threaded_query_keeps_conn (w w' : nat) (sql : string)
    (s : ThreadedDatabase) (c : Connection) :
  thread_local_conn s w' = Some c ->
  thread_local_conn (fst (threaded_query create_connection w sql s)) w' = Some c.
Proof.
  intros Hc. unfold threaded_query.
  destruct (pool_broken s); [exact Hc |].
  pose proof (start_worker_keeps_conn w w' s c Hc) as Hc'.
  destruct (pool_broken (start_worker create_connection w s)); [exact Hc' |].
  unfold _query_in_worker.
  destruct (_init_error (start_worker create_connection w s)); [exact Hc' |].
  destruct (thread_local_conn (start_worker create_connection w s) w);
    exact Hc'.
Qed.

(** Connection affinity: once a worker thread holds a connection, no run
    of queries replaces or drops it, and running [set_conn] again in that
    thread fails its assertion and changes nothing. *)
Theorem worker_connection_is_kept (w : nat) (s : ThreadedDatabase)
    (c : Connection) :
  thread_local_conn s w = Some c ->
  (forall qs,
     thread_local_conn (fst (run_queries create_connection qs s)) w = Some c) /\
  set_conn create_connection w s = (s, Raise (mk_exn AssertionError "")).
Proof.
  intros Hc. split.
  - intros qs. revert s Hc. induction qs as [| [w0 sql] qs IH]; intros s Hc.
    + exact Hc.
    + rewrite run_queries_cons. simpl fst.
      apply IH. now apply threaded_query_keeps_conn.
  - unfold set_conn. now rewrite Hc.
Qed.

(** A broken pool stays broken: every later query fails with
    [BrokenThreadPool] and the state does not change. *)
Theorem broken_pool_is_absorbing (s : ThreadedDatabase) (qs : list (nat * string)) :
  pool_broken s = true ->
  run_queries create_connection qs s
  = (s, map (fun _ => Raise (mk_exn BrokenThreadPool "")) qs).
Proof.
  intros Hb. induction qs as [| [w sql] qs IH]; [reflexivity |].
  simpl. unfold threaded_query. rewrite Hb, IH. reflexivity.
Qed.

Lemma threaded_query_executed (w : nat) (sql : string) (s : ThreadedDatabase) :
  executed (fst (threaded_query create_connection w sql s)) = executed s \/
  executed (fst (threaded_query create_connection w sql s))
    = (executed s ++ [(w, sql)])%list.
Proof.
  assert (Hstart : executed (start_worker create_connection w s) = executed s).
  { unfold start_worker, set_conn.
    destruct (pool_started s w); [reflexivity |].
    destruct (thread_local_conn s w); [reflexivity |].
    destruct (create_connection w) as [conn | e]; [reflexivity |].
    destruct (exn_class e); reflexivity. }
  unfold threaded_query.
  destruct (pool_broken s); [now left |].
  destruct (pool_broken (start_worker create_connection w s)); [now left |].
  unfold _query_in_worker.
  destruct (_init_error (start_worker create_connection w s)); [now left |].
  destruct (thread_local_conn (start_worker create_connection w s) w);
    [right | left]; simpl; now rewrite Hstart.
Qed.

(** The log of executed statements only grows, and what a run of queries
    adds to it is a subsequence of the submitted queries: each statement is
    executed at most once, by the worker it was handed to, in the order of
    submission. *)
Theorem executed_log_grows (qs : list (nat * string)) (s : ThreadedDatabase) :
  exists l,
    executed (fst (run_queries create_connection qs s)) = (executed s ++ l)%list /\
    subsequence l qs.
Proof.
  revert s. induction qs as [| [w sql] qs IH]; intros s.
  - exists []. simpl. rewrite app_nil_r. split; [reflexivity | constructor].
  - rewrite run_queries_cons. simpl fst.
    destruct (IH (fst (threaded_query create_connection w sql s)))
      as [l [Hl Hsub]].
    destruct (threaded_query_executed w sql s) as [E | E]; rewrite E in Hl.
    + exists l. split; [exact Hl |]. now apply subsequence_skip.
    + exists ((w, sql) :: l). rewrite <- app_assoc in Hl.
      split; [exact Hl |]. now apply subsequence_take.
Qed.

End PoolFacts.

Lemma threaded_query_runs_on_worker_connection_witness :
  snd (threaded_query connects 0 "SELECT 1" (__init__ 1))
    = Ok (Some [[SqlInt 1]]) /\
  executed (fst (threaded_query connects 0 "SELECT 1" (__init__ 1)))
    = [(0%nat, "SELECT 1")].
Proof.
  destruct (threaded_query_runs_on_worker_connection connects 0 "SELECT 1"
              (__init__ 1) one_row_connection eq_refl eq_refl
              (or_introl (conj eq_refl (conj eq_refl eq_refl))))
    as [H1 [_ [H3 _]]].
  split; [exact H1 | exact H3].
Defined.

Lemma worker_connection_is_kept_witness :
  thread_local_conn
    (fst (run_queries connection_refused [(1%nat, "SELECT 2")]
            (fst (threaded_query connects 0 "SELECT 1" (__init__ 2))))) 0
  = Some one_row_connection.
Proof.
  apply (proj1 (worker_connection_is_kept connection_refused 0
                  (fst (threaded_query connects 0 "SELECT 1" (__init__ 2)))
                  one_row_connection eq_refl)).
Defined.

Lemma broken_pool_is_absorbing_witness :
  snd (run_queries connects [(0%nat, "SELECT 2"); (1%nat, "SELECT 3")]
         (fst (threaded_query connection_refused 0 "SELECT 1" (__init__ 2))))
  = [Raise (mk_exn BrokenThreadPool ""); Raise (mk_exn BrokenThreadPool "")].
Proof.
  rewrite (broken_pool_is_absorbing connects
             (fst (threaded_query connection_refused 0 "SELECT 1" (__init__ 2)))
             [(0%nat, "SELECT 2"); (1%nat, "SELECT 3")] eq_refl).
  reflexivity.
Defined.

(** A missing driver reported through [import_helper] is still captured:
    the wrapped error is a [ModuleNotFoundError], so [set_conn] stores it
    and the query raises it, hint included; a failure of another class
    passes through [import_helper] unchanged and breaks the pool. *)
Theorem import_helper_error_is_captured (package : option string)
    (text : string) (raw : nat -> result Connection) (w : nat) (sql : string)
    (s : ThreadedDatabase) (e : exn) :
  pool_broken s = false ->
  pool_started s w = false ->
  thread_local_conn s w = None ->
  raw w = Raise e ->
  let create_connection := fun w' => import_helper package text (raw w') in
  (exn_class e = ModuleNotFoundError ->
   exists e',
     import_helper package text (raw w) = Raise e' /\
     _init_error (fst (threaded_query create_connection w sql s)) = Some e' /\
     snd (threaded_query create_connection w sql s) = Raise e' /\
     pool_broken (fst (threaded_query create_connection w sql s)) = false) /\
  (exn_class e <> ModuleNotFoundError ->
   _init_error (fst (threaded_query create_connection w sql s)) = _init_error s /\
   snd (threaded_query create_connection w sql s)
     = Raise (mk_exn BrokenThreadPool "") /\
   pool_broken (fst (threaded_query create_connection w sql s)) = true).
Proof.
  intros Hb Hst Hc Hraw create_connection. split.
  - intros Hcls.
    destruct (import_helper_wraps (A := Connection) package text e Hcls)
      as [e' [He' [Hcls' _]]].
    rewrite <- Hraw in He'.
    exists e'. split; [exact He' |].
    assert (Hcreate : create_connection w = Raise e') by exact He'.
    destruct (start_worker_captures create_connection w s e' Hst Hc Hcreate Hcls')
      as [Hi [Hb' _]].
    unfold threaded_query. rewrite Hb, Hb', Hb.
    unfold _query_in_worker. rewrite Hi. simpl.
    repeat split; [exact Hi | congruence].
  - intros Hcls.
    assert (Hcreate : create_connection w = Raise e).
    { unfold create_connection. rewrite Hraw. simpl.
      destruct (exn_class e); congruence. }
    unfold threaded_query, start_worker, set_conn.
    rewrite Hb, Hst, Hc, Hcreate.
    destruct (exn_class e); try congruence; simpl; auto.
Qed.

Lemma import_helper_error_is_captured_witness :
  exists e',
    _init_error (fst (threaded_query missing_driver_with_hint 0 "SELECT 1" (__init__ 1)))
      = Some e' /\
    snd (threaded_query missing_driver_with_hint 0 "SELECT 1" (__init__ 1)) = Raise e'.
Proof.
  destruct (proj1 (import_helper_error_is_captured (Some "postgresql") ""
                     missing_driver 0 "SELECT 1" (__init__ 1) missing_driver_error
                     eq_refl eq_refl eq_refl eq_refl) eq_refl)
    as [e' [_ [H1 [H2 _]]]].
  exists e'. split; [exact H1 | exact H2].
Defined.

(** ** The columns of a resolved schema *)

Lemma dict_set_keys_present {V : Type} (k : string) (v : V) (d : Dict V) :
  dict_mem k d = true -> map fst (dict_set k v d) = map fst d.
Proof.
  unfold dict_mem. induction d as [| [k' v'] d IH]; simpl; [discriminate |].
  destruct (String.eqb k k'); simpl; [reflexivity |].
  intros H. now rewrite IH.
Qed.

Lemma dict_set_keys_In {V : Type} (k k0 : string) (v : V) (d : Dict V) :
  In k (map fst (dict_set k0 v d)) <-> k = k0 \/ In k (map fst d).
Proof.
  induction d as [| [k' v'] d IH]; simpl.
  - intuition congruence.
  - destruct (String.eqb k0 k') eqn:E; simpl.
    + apply String.eqb_eq in E. subst k'. intuition congruence.
    + rewrite IH. intuition congruence.
Qed.

Lemma dict_set_NoDup {V : Type} (k : string) (v : V) (d : Dict V) :
  NoDup (map fst d) -> NoDup (map fst (dict_set k v d)).
Proof.
  induction d as [| [k' v'] d IH]; simpl; intros Hnd.
  - constructor; [tauto | constructor].
  - inversion Hnd as [| ? ? Hnotin Hnd']; subst.
    destruct (String.eqb k k') eqn:E; simpl; [now constructor |].
    constructor; [| now apply IH].
    rewrite dict_set_keys_In. apply String.eqb_neq in E.
    intros [H | H]; [congruence | tauto].
Qed.

Lemma find_app {A : Type} (f : A -> bool) (l1 l2 : list A) :
  find f (l1 ++ l2) = match find f l1 with
                      | Some x => Some x
                      | None => find f l2
                      end.
Proof.
  induction l1 as [| x l1 IH]; simpl; [reflexivity |].
  now destruct (f x).
Qed.

Lemma filter_all_true {A : Type} (l : list A) : filter (fun _ => true) l = l.
Proof.
  induction l as [| x l IH]; simpl; [reflexivity | now rewrite IH].
Qed.

(** The dict comprehension over the schema rows: the keys are the column
    names, each once; a name listed by several rows gets the type of the
    last of them. *)
Lemma parse_rows_spec (math_log : Z -> Z -> R) (math_log_neg : Z -> result R)
    (self : Database)
    (path : DbPath) (rows : list SchemaRow) :
  forall acc d,
    parse_rows math_log math_log_neg self path rows acc = Ok d ->
    (NoDup (map fst acc) -> NoDup (map fst d)) /\
    (forall k, In k (map fst d) <->
               In k (map fst acc) \/ In k (map column_name rows)) /\
    (forall k,
       match last_named k rows with
       | Some r => exists t, parse_row math_log math_log_neg self path r = Ok t /\ dict_get k d = Some t
       | None => dict_get k d = dict_get k acc
       end).
Proof.
  unfold last_named.
  induction rows as [| r rows IH]; intros acc d H; simpl in H.
  - injection H as <-. simpl. repeat split; tauto.
  - fold (parse_row math_log math_log_neg self path r) in H.
    destruct (parse_row math_log math_log_neg self path r) as [t |] eqn:Er; simpl in H; [| discriminate].
    destruct (IH _ _ H) as [Hnd [Hkeys Hlast]].
    split; [| split].
    + intros Hacc. apply Hnd. now apply dict_set_NoDup.
    + intros k. rewrite Hkeys, dict_set_keys_In. simpl. intuition congruence.
    + intros k. specialize (Hlast k). simpl rev. rewrite find_app.
      destruct (find (fun r0 => String.eqb (column_name r0) k) (rev rows));
        [exact Hlast |].
      simpl. destruct (String.eqb (column_name r) k) eqn:E.
      * apply String.eqb_eq in E. subst k. exists t. split; [exact Er |].
        rewrite Hlast. apply dict_get_set_same.
      * rewrite Hlast. apply dict_get_set_other.
        apply String.eqb_neq in E. congruence.
Qed.

Lemma parse_raw_rows_typed (math_log : Z -> Z -> R)
    (math_log_neg : Z -> result R) (self : Database) (path : DbPath)
    (rows : list Row) :
  forall srs acc,
    map_result schema_row_of rows = Ok srs ->
    parse_raw_rows math_log math_log_neg self path rows acc
    = parse_rows math_log math_log_neg self path srs acc.
Proof.
  induction rows as [| r rows IH]; intros srs acc H; simpl in H.
  - injection H as <-. reflexivity.
  - destruct (schema_row_of r) as [sr |] eqn:Er; simpl in H; [| discriminate].
    destruct (map_result schema_row_of rows) as [srs' |] eqn:Em; simpl in H;
      [| discriminate].
    injection H as <-. simpl. rewrite Er. simpl.
    destruct (_parse_type math_log math_log_neg self path _ _ _ _ _); simpl;
      [| reflexivity].
    now apply IH.
Qed.

Lemma parse_raw_rows_decodes (math_log : Z -> Z -> R)
    (math_log_neg : Z -> result R) (self : Database) (path : DbPath)
    (rows : list Row) :
  forall acc d,
    parse_raw_rows math_log math_log_neg self path rows acc = Ok d ->
    exists srs, map_result schema_row_of rows = Ok srs.
Proof.
  induction rows as [| r rows IH]; intros acc d H; simpl in H.
  - exists []. reflexivity.
  - simpl. destruct (schema_row_of r) as [sr |]; simpl in H; [| discriminate].
    destruct (_parse_type math_log math_log_neg self path _ _ _ _ _) as [t |];
      simpl in H; [| discriminate].
    destruct (IH _ _ H) as [srs Hs]. rewrite Hs. simpl. eauto.
Qed.

Lemma map_result_In {A B : Type} (f : A -> result B) (l : list A) :
  forall l', map_result f l = Ok l' ->
  forall y, In y l' <-> exists x, In x l /\ f x = Ok y.
Proof.
  induction l as [| x l IH]; intros l' H y; simpl in H.
  - injection H as <-. split; [intros [] | intros [x [[] _]]].
  - destruct (f x) as [y0 |] eqn:Ex; simpl in H; [| discriminate].
    destruct (map_result f l) as [ys |]; simpl in H; [| discriminate].
    injection H as <-. simpl. rewrite (IH ys eq_refl y). split.
    + intros [<- | [x' [Hin Hx']]]; [exists x; auto | exists x'; auto].
    + intros [x' [[<- | Hin] Hx']]; [left; congruence | right; eauto].
Qed.

(** The filter step keeps, in order, the rows whose lowered name is
    accepted; it runs to its end exactly when every row starts with a text
    value. *)
Lemma filter_rows_spec (str_lower : string -> string) (cols : list string)
    (rows : list Row) :
  (forall kept,
     filter_rows str_lower (map str_lower cols) rows = Ok kept ->
     Forall named_row rows /\
     kept = filter (kept_by_filter str_lower (Some cols)) rows) /\
  (Forall named_row rows ->
   filter_rows str_lower (map str_lower cols) rows
   = Ok (filter (kept_by_filter str_lower (Some cols)) rows)).
Proof.
  induction rows as [| r rows [IH1 IH2]]; split.
  - intros kept H. injection H as <-. split; [constructor | reflexivity].
  - reflexivity.
  - intros kept H. simpl in H.
    destruct r as [| [| i | m sc | c] rest]; simpl in H; try discriminate.
    destruct (filter_rows str_lower (map str_lower cols) rows) as [kept' |] eqn:E;
      simpl in H; [| discriminate].
    destruct (IH1 kept' eq_refl) as [Hnamed ->].
    injection H as <-. split; [constructor; [unfold named_row; eauto | exact Hnamed] |].
    reflexivity.
  - intros Hnamed. inversion Hnamed as [| ? ? [c [rest ->]] Hrest]; subst.
    simpl. rewrite (IH2 Hrest). reflexivity.
Qed.

Section SchemaColumns.

Variable math_log : Z -> Z -> R.
Variable math_log_neg : Z -> result R.
Variable compile : Database -> Sql -> string.
Variable int_of_text : string -> result Z.
Variable is_uuid : Scalar -> result bool.
Variable str_lower : string -> string.

Lemma refine_column_keys (path : DbPath) (st : RefineState) (k : string)
    (s : list Scalar) :
  map fst (col_dict (fst (refine_column is_uuid path st k s))) = map fst (col_dict st).
Proof.
  unfold refine_column.
  destruct (filter_result is_uuid s) as [[| u us] | e]; [reflexivity | | reflexivity].
  cbv zeta. destruct (negb _); [reflexivity |].
  destruct (dict_mem k (col_dict st)) eqn:E; [| reflexivity].
  simpl. now apply dict_set_keys_present.
Qed.

Lemma refine_loop_keys (path : DbPath) (pairs : list (string * list Scalar)) :
  forall st,
    map fst (col_dict (fst (refine_loop is_uuid path st pairs))) = map fst (col_dict st).
Proof.
  induction pairs as [| [k s] pairs IH]; intros st; simpl; [reflexivity |].
  pose proof (refine_column_keys path st k s) as Hk.
  destruct (refine_column is_uuid path st k s) as [st' [u | e]]; simpl in *.
  - now rewrite IH.
  - exact Hk.
Qed.

Lemma refine_coltypes_keys (self : Database) (answer : string)
    (path : DbPath) (d : Dict ColType) :
  map fst (col_dict (fst (_refine_coltypes compile int_of_text is_uuid
                            self answer path d)))
  = map fst d.
Proof.
  unfold _refine_coltypes.
  destruct (text_columns_of d) as [| c cols]; [reflexivity |].
  match goal with
  | |- context [match ?m with Ok _ => _ | Raise _ => _ end] => destruct m as [pairs | e]
  end; [| reflexivity].
  apply refine_loop_keys.
Qed.

(** [_refine_coltypes] never adds, drops or reorders a column: whatever
    the database answers, and also when the call ends in an exception, the
    keys of the dict stay as they were. *)
Theorem refine_coltypes_keeps_columns (self : Database) (answer : string)
    (path : DbPath) (d : Dict ColType) :
  map fst (col_dict (fst (_refine_coltypes compile int_of_text is_uuid
                            self answer path d)))
  = map fst d /\
  List.length (col_dict (fst (_refine_coltypes compile int_of_text is_uuid
                                self answer path d)))
  = List.length d.
Proof.
  pose proof (refine_coltypes_keys self answer path d) as H.
  split; [exact H |].
  rewrite <- (length_map fst), H. apply length_map.
Qed.

Lemma query_raw_code (self : Database) (answer sql : string) :
  query compile int_of_text self answer (SqlCode sql) RT_other =
    (res <- _query self (compile self (SqlCode sql)) ;; Ok (QRaw res)).
Proof.
  unfold query, confirm_interactive. simpl. now rewrite andb_false_r.
Qed.

Lemma query_table_schema_unfold (self : Database) (answer : string)
    (path : DbPath) (filter_columns : option (list string)) (sql : string)
    (raw : list Row) :
  select_table_schema self path = Ok sql ->
  _query self (compile self (SqlCode sql)) = Ok (Some raw) ->
  raw <> [] ->
  query_table_schema math_log math_log_neg compile int_of_text is_uuid str_lower
    self answer path filter_columns =
    (rows <- filter_schema_rows str_lower filter_columns raw ;;
     d <- parse_raw_rows math_log math_log_neg self path rows [] ;;
     match _refine_coltypes compile int_of_text is_uuid self answer path d with
     | (st, Ok _) => Ok (col_dict st)
     | (_, Raise e) => Raise e
     end).
Proof.
  intros Hsql Hres Hne. unfold query_table_schema.
  rewrite Hsql. cbn [bind]. rewrite query_raw_code, Hres. cbn [bind].
  destruct raw as [| r raw]; [congruence | reflexivity].
Qed.

Lemma query_table_schema_answer (self : Database) (answer : string)
    (path : DbPath) (filter_columns : option (list string)) (d : Dict ColType) :
  query_table_schema math_log math_log_neg compile int_of_text is_uuid str_lower
    self answer path filter_columns = Ok d ->
  exists sql raw,
    select_table_schema self path = Ok sql /\
    _query self (compile self (SqlCode sql)) = Ok (Some raw) /\
    raw <> [].
Proof.
  intros H. unfold query_table_schema in H.
  destruct (select_table_schema self path) as [sql |] eqn:Es; [| discriminate].
  cbn [bind] in H. rewrite query_raw_code in H.
  destruct (_query self (compile self (SqlCode sql))) as [[[| r raw] |] |] eqn:E;
    try discriminate.
  exists sql, (r :: raw). split; [reflexivity |]. split; [exact E | discriminate].
Qed.

(** The emptiness test of [query_table_schema] comes before the column
    filter: when the table has columns, each schema row starts with its
    name, and the filter keeps none of them (an empty [filter_columns],
    say), the result is the empty dict, not the [RuntimeError] of a missing
    table. *)
Theorem query_table_schema_filter_keeps_nothing (self : Database)
    (answer : string) (path : DbPath) (cols : list string)
    (sql : string) (raw : list Row) :
  select_table_schema self path = Ok sql ->
  _query self (compile self (SqlCode sql)) = Ok (Some raw) ->
  raw <> [] ->
  Forall named_row raw ->
  (forall r, In r raw -> kept_by_filter str_lower (Some cols) r = false) ->
  query_table_schema math_log math_log_neg compile int_of_text is_uuid str_lower
    self answer path (Some cols)
  = Ok [].
Proof.
  intros Hsql Hres Hne Hnamed Hnone.
  rewrite (query_table_schema_unfold self answer path (Some cols) sql raw
             Hsql Hres Hne).
  unfold filter_schema_rows.
  rewrite (proj2 (filter_rows_spec str_lower cols raw) Hnamed).
  assert (E : filter (kept_by_filter str_lower (Some cols)) raw = []).
  { clear Hres Hne Hnamed.
    induction raw as [| r raw' IH]; [reflexivity |].
    cbn [filter]. rewrite (Hnone r (or_introl eq_refl)).
    apply IH. intros r' Hr'. apply Hnone. now right. }
  rewrite E. reflexivity.
Qed.

(** The columns of a resolved schema: when [query_table_schema] returns a
    dict, its keys are distinct and are exactly the column names of the rows
    of the answer that pass [filter_columns] (names lowered on both sides by
    [str.lower()]). *)
Theorem query_table_schema_columns (self : Database) (answer : string)
    (path : DbPath) (filter_columns : option (list string)) (d : Dict ColType) :
  query_table_schema math_log math_log_neg compile int_of_text is_uuid str_lower
    self answer path filter_columns
  = Ok d ->
  exists sql raw,
    select_table_schema self path = Ok sql /\
    _query self (compile self (SqlCode sql)) = Ok (Some raw) /\
    NoDup (map fst d) /\
    (forall k, In k (map fst d) <->
               exists r sr, In r raw /\
                            kept_by_filter str_lower filter_columns r = true /\
                            schema_row_of r = Ok sr /\ column_name sr = k).
Proof.
  intros H.
  destruct (query_table_schema_answer self answer path filter_columns d H)
    as [sql [raw [Hsql [Hres Hne]]]].
  rewrite (query_table_schema_unfold self answer path filter_columns sql raw
             Hsql Hres Hne) in H.
  destruct (filter_schema_rows str_lower filter_columns raw) as [kept |] eqn:Hkept;
    cbn [bind] in H; [| discriminate].
  destruct (parse_raw_rows math_log math_log_neg self path kept [])
    as [d0 |] eqn:Hparse; cbn [bind] in H; [| discriminate].
  pose proof (refine_coltypes_keys self answer path d0) as Hkeys.
  destruct (_refine_coltypes compile int_of_text is_uuid self answer path d0)
    as [st [u | e]]; [| discriminate].
  injection H as <-. simpl in Hkeys.
  destruct (parse_raw_rows_decodes math_log math_log_neg self path kept [] d0 Hparse)
    as [srs Hsrs].
  rewrite (parse_raw_rows_typed math_log math_log_neg self path kept srs [] Hsrs)
    in Hparse.
  destruct (parse_rows_spec math_log math_log_neg self path _ _ _ Hparse)
    as [Hnd [Hin _]].
  assert (Hkept_in : forall r, In r kept <->
            In r raw /\ kept_by_filter str_lower filter_columns r = true).
  { intros r. destruct filter_columns as [cols |]; simpl in Hkept.
    - destruct (proj1 (filter_rows_spec str_lower cols raw) kept Hkept) as [_ ->].
      apply filter_In.
    - injection Hkept as <-. simpl. tauto. }
  exists sql, raw. split; [exact Hsql |]. split; [exact Hres |].
  split; [rewrite Hkeys; apply Hnd; constructor |].
  intros k. rewrite Hkeys, Hin. split.
  - intros [[] | Hk]. apply in_map_iff in Hk. destruct Hk as [sr [Hname Hsr]].
    apply (map_result_In schema_row_of kept srs Hsrs) in Hsr.
    destruct Hsr as [r [Hr Hdec]]. apply Hkept_in in Hr.
    exists r, sr. tauto.
  - intros [r [sr [Hr [Hk [Hdec Hname]]]]]. right.
    apply in_map_iff. exists sr. split; [exact Hname |].
    apply (map_result_In schema_row_of kept srs Hsrs).
    exists r. split; [apply Hkept_in; tauto | exact Hdec].
Qed.

End SchemaColumns.

Lemma parse_raw_rows_first_error (math_log : Z -> Z -> R)
    (math_log_neg : Z -> result R) (self : Database)
    (path : DbPath) (good : list Row) (bad : Row) (sr : SchemaRow)
    (rest : list Row) (e : exn) :
  Forall (fun r => exists sr' t,
            schema_row_of r = Ok sr' /\
            parse_row math_log math_log_neg self path sr' = Ok t) good ->
  schema_row_of bad = Ok sr ->
  parse_row math_log math_log_neg self path sr = Raise e ->
  forall acc,
    parse_raw_rows math_log math_log_neg self path (good ++ bad :: rest) acc = Raise e.
Proof.
  intros Hgood Hdec Hbad.
  induction Hgood as [| r good [sr' [t [Hd Ht]]] _ IH]; intros acc; simpl.
  - rewrite Hdec. simpl. unfold parse_row in Hbad. now rewrite Hbad.
  - rewrite Hd. simpl. unfold parse_row in Ht. rewrite Ht. simpl. apply IH.
Qed.

(** The dict comprehension of [query_table_schema]: when every row
    parses, a column named by several rows is typed by the last of them, and
    a name that no row carries is not in the dict. *)
Theorem schema_rows_last_type_wins (math_log : Z -> Z -> R)
    (math_log_neg : Z -> result R) (self : Database)
    (path : DbPath) (rows : list SchemaRow) (d : Dict ColType) :
  parse_rows math_log math_log_neg self path rows [] = Ok d ->
  forall k,
    match last_named k rows with
    | Some r =>
        exists t, parse_row math_log math_log_neg self path r = Ok t /\
                  dict_get k d = Some t
    | None => dict_get k d = None
    end.
Proof.
  intros H k.
  destruct (parse_rows_spec math_log math_log_neg self path rows [] d H)
    as [_ [_ Hlast]].
  exact (Hlast k).
Qed.

Lemma schema_rows_last_type_wins_witness :
  exists t,
    parse_row exact_log exact_log_neg db_three_columns ["public"; "t"]
      (mk_SchemaRow "id" "integer" None (Some 32) (Some 0)) = Ok t /\
    dict_get "id" [("id", Integer); ("Price", Decimal 2)] = Some t.
Proof.
  exact (schema_rows_last_type_wins exact_log exact_log_neg db_three_columns
           ["public"; "t"] three_schema_rows [("id", Integer); ("Price", Decimal 2)]
           eq_refl "id").
Defined.

(** Schema resolution stops at the first kept row that [_parse_type]
    rejects and raises that row's error: one [Decimal] column without scale
    fails the whole table with [ValueError]. *)
Theorem query_table_schema_first_parse_error (math_log : Z -> Z -> R)
    (math_log_neg : Z -> result R)
    (compile : Database -> Sql -> string) (int_of_text : string -> result Z)
    (is_uuid : Scalar -> result bool) (str_lower : string -> string)
    (self : Database) (answer : string)
    (path : DbPath) (filter_columns : option (list string)) (sql : string)
    (raw good rest : list Row) (bad : Row) (sr : SchemaRow) (e : exn) :
  select_table_schema self path = Ok sql ->
  _query self (compile self (SqlCode sql)) = Ok (Some raw) ->
  raw <> [] ->
  filter_schema_rows str_lower filter_columns raw = Ok (good ++ bad :: rest)%list ->
  Forall (fun r => exists sr' t,
            schema_row_of r = Ok sr' /\
            parse_row math_log math_log_neg self path sr' = Ok t) good ->
  schema_row_of bad = Ok sr ->
  parse_row math_log math_log_neg self path sr = Raise e ->
  query_table_schema math_log math_log_neg compile int_of_text is_uuid str_lower
    self answer path filter_columns
  = Raise e.
Proof.
  intros Hsql Hres Hne Hkept Hgood Hdec Hbad.
  rewrite (query_table_schema_unfold math_log math_log_neg compile int_of_text
             is_uuid str_lower self answer path filter_columns sql raw
             Hsql Hres Hne).
  rewrite Hkept. cbn [bind].
  now rewrite (parse_raw_rows_first_error math_log math_log_neg self path
                 good bad sr rest e Hgood Hdec Hbad).
Qed.

Lemma query_table_schema_first_parse_error_witness :
  query_table_schema exact_log exact_log_neg compile_text int_of_text_never
    is_uuid_text lower db_decimal_without_scale "" ["t"] None
  = Raise (mk_exn ValueError
      "PostgreSQL: Unexpected numeric_scale is NULL, for column t.price of type numeric.").
Proof.
  eapply (query_table_schema_first_parse_error exact_log exact_log_neg
            compile_text int_of_text_never is_uuid_text lower
            db_decimal_without_scale "" ["t"] None
            _ _
            [[SqlText "id"; SqlText "integer"; SqlNull; SqlInt 32; SqlInt 0]]
            [[SqlText "note"; SqlText "text"; SqlNull; SqlNull; SqlNull]]
            [SqlText "price"; SqlText "numeric"; SqlNull; SqlInt 10; SqlNull]).
  - reflexivity.
  - reflexivity.
  - discriminate.
  - reflexivity.
  - constructor; [| constructor]. eexists. exists Integer. split; reflexivity.
  - reflexivity.
  - reflexivity.
Defined.

Lemma query_table_schema_filter_keeps_nothing_witness :
  query_table_schema exact_log exact_log_neg compile_text int_of_text_never
    is_uuid_text lower db_three_columns "" ["t"] (Some [])
  = Ok [].
Proof.
  eapply (query_table_schema_filter_keeps_nothing exact_log exact_log_neg
            compile_text int_of_text_never is_uuid_text lower
            db_three_columns "" ["t"] []).
  - reflexivity.
  - reflexivity.
  - discriminate.
  - repeat constructor; unfold named_row; eauto.
  - intros r Hr. simpl in Hr.
    destruct Hr as [<- | [<- | [<- | []]]]; reflexivity.
Defined.

Lemma query_table_schema_columns_witness :
  exists sql raw,
    select_table_schema db_three_columns ["t"] = Ok sql /\
    _query db_three_columns (compile_text db_three_columns (SqlCode sql))
      = Ok (Some raw) /\
    NoDup (map fst [("Price", Decimal 2)]) /\
    (forall k, In k (map fst [("Price", Decimal 2)]) <->
               exists r sr, In r raw /\
                            kept_by_filter lower (Some ["PRICE"]) r = true /\
                            schema_row_of r = Ok sr /\ column_name sr = k).
Proof.
  exact (query_table_schema_columns exact_log exact_log_neg compile_text
           int_of_text_never is_uuid_text lower db_three_columns "" ["t"]
           (Some ["PRICE"]) [("Price", Decimal 2)] eq_refl).
Defined.

(** ** What refinement may write *)

Section RefineWrites.

Variable compile : Database -> Sql -> string.
Variable int_of_text : string -> result Z.
Variable is_uuid : Scalar -> result bool.

Lemma refine_column_writes (path : DbPath) (st : RefineState) (k0 : string)
    (s : list Scalar) (k : string) :
  dict_get k (col_dict (fst (refine_column is_uuid path st k0 s)))
    = dict_get k (col_dict st) \/
  (dict_get k (col_dict (fst (refine_column is_uuid path st k0 s)))
     = Some ColType_UUID /\ k = k0).
Proof.
  unfold refine_column.
  destruct (filter_result is_uuid s) as [[| u us] | e]; [now left | | now left].
  cbv zeta. destruct (negb _); [now left |].
  destruct (dict_mem k0 (col_dict st)); [| now left].
  simpl. destruct (String.eqb k k0) eqn:E.
  - apply String.eqb_eq in E. subst k0. right.
    split; [apply dict_get_set_same | reflexivity].
  - left. apply dict_get_set_other. now apply String.eqb_neq.
Qed.

Lemma refine_loop_writes (path : DbPath) (pairs : list (string * list Scalar))
    (k : string) :
  forall st,
    dict_get k (col_dict (fst (refine_loop is_uuid path st pairs)))
      = dict_get k (col_dict st) \/
    (dict_get k (col_dict (fst (refine_loop is_uuid path st pairs)))
       = Some ColType_UUID /\ In k (map fst pairs)).
Proof.
  induction pairs as [| [k0 s] pairs IH]; intros st; simpl; [now left |].
  pose proof (refine_column_writes path st k0 s k) as Hc.
  destruct (refine_column is_uuid path st k0 s) as [st' [u | e]]; simpl in Hc.
  - destruct (IH st') as [H | [H Hin]].
    + rewrite H. destruct Hc as [Hc | [Hc ->]]; [now left | right; auto].
    + right. auto.
  - simpl. destruct Hc as [Hc | [Hc ->]]; [now left | right; auto].
Qed.

(** The only thing [_refine_coltypes] ever writes is [ColType_UUID], and
    only under the name of a [Text] column: every other entry of the dict
    reads as before, whatever the database answers. *)
Theorem refine_coltypes_writes_uuid_only (self : Database) (answer : string)
    (path : DbPath) (d : Dict ColType) (k : string) :
  dict_get k (col_dict (fst (_refine_coltypes compile int_of_text is_uuid
                               self answer path d)))
    = dict_get k d \/
  (dict_get k (col_dict (fst (_refine_coltypes compile int_of_text is_uuid
                                self answer path d)))
     = Some ColType_UUID /\
   In k (text_columns_of d)).
Proof.
  unfold _refine_coltypes.
  destruct (text_columns_of d) as [| c cols] eqn:Ecols; [now left |].
  rewrite <- Ecols.
  destruct (query compile int_of_text self answer
              (sample_select path (text_columns_of d)) RT_other)
    as [res | e]; simpl bind; [| now left].
  destruct (match res with QRaw r => iter_rows r | _ => Ok [] end)
    as [sbr | e]; simpl bind; [| now left].
  unfold safezip.
  destruct (Nat.eqb _ _); [| now left].
  destruct (refine_loop_writes path
              (combine (text_columns_of d) (zip_star sbr)) k
              (mk_RefineState d [])) as [H | [H Hin]]; [now left |].
  right. split; [exact H |].
  apply in_map_iff in Hin. destruct Hin as [[k' s] [Hk Hin]].
  simpl in Hk. subst k'. now apply in_combine_l in Hin.
Qed.

End RefineWrites.
